(** * Chat backend: conversation directory, message store, room broker and
    signaling relay of [src/index.js]

    The server of [src/index.js] is an Express application backed by two
    Mongoose collections ([Conversation], [Message]) and a Socket.IO server.
    Each route handler is an [async] function: it runs synchronously up to an
    [await], is suspended while the store works, and is resumed with the
    store's answer.  The handlers are embedded as programs of a small free
    monad, [Prog], over the effects the source performs; [run] executes a
    program without interruption, [resume] executes it one [await] at a
    time, so that several requests in flight can be interleaved.

    What is taken from the libraries, not from this repository:
    - a collection is the list of its documents in insertion order; [find]
      without a sort returns the matching documents in that order, [findOne]
      the first of them; [save] appends, and rejects a duplicate [_id] or a
      duplicate value of a field declared [unique: true];
    - every store operation may reject (storage failure), decided by an
      oracle held in the world;
    - a Socket.IO socket is a member of the room named by its own id from
      the moment it connects and leaves every room when it disconnects;
      [io.to(r).emit] delivers to every member of room [r],
      [socket.to(r).emit] to every member except [socket], and an emit to
      [undefined] reaches nobody;
    - [console.log] is not modelled;
    - request bodies and event payloads are JS objects with string-valued
      properties, a missing property reading as [undefined] ([None]). *)

From stdpp Require Import gmap strings list sorting.

(** ** Documents *)

Module Conversation.
(** [conversationSchema]: [participants: [String]],
    [conversationId: { type: String, unique: true }], and the [_id] every
    Mongoose document carries. *)
Record t : Type := mk {
  _id : string;
  participants : list string;
  conversationId : string
}.
End Conversation.

Module Message.
(** [messageSchema]; [timestamp] is a [Date] in milliseconds. *)
Record t : Type := mk {
  _id : string;
  conversationId : string;
  senderUsername : string;
  receiverUsername : string;
  message : string;
  whosend : string;
  timestamp : Z
}.
End Message.

(** A JS object whose properties are strings: [req.body], [req.params], and
    the [data] of a signaling event. *)
Abbreviation JsObject := (gmap string string).

(** JS truthiness of a property read: [undefined] and the empty string are
    falsy. *)
Definition truthy (v : option string) : bool :=
  match v with
  | Some s => bool_decide (s ≠ "")
  | None => false
  end.

(** An element of the array answered by [GET /api/messages/list/:senderUsername];
    a [receiverUsername] that is [undefined] is [None] (the key is left out of
    the JSON text). *)
Record ListEntry : Type := mkListEntry {
  le_conversationId : string;
  le_receiverUsername : option string
}.

(** The JSON bodies the handlers send. *)
Inductive Json : Type :=
| JMessage (message : string)
| JMessageError (message error : string)
| JConversationId (conversationId : string)
| JMessages (docs : list Message.t)
| JList (entries : list ListEntry)
| JDocument (doc : Message.t).

Record Response : Type := mkResponse {
  status : nat;
  body : Json
}.

(** What an emitted Socket.IO event carries. *)
Inductive Payload : Type :=
| PDocument (doc : Message.t)
| PData (data : JsObject).

(** One event put on one connection's outbound channel. *)
Record Delivery : Type := mkDelivery {
  d_to : string;
  d_event : string;
  d_payload : Payload
}.

(** What a rejected promise carries. *)
Inductive Error : Type :=
| StorageError
| DuplicateKey.

Inductive Settled (X : Type) : Type :=
| Fulfilled (x : X)
| Rejected (e : Error).
Arguments Fulfilled {X} x.
Arguments Rejected {X} e.

(** ** The world the server runs in *)

Record World : Type := mkWorld {
  conversations : list Conversation.t;
  messages : list Message.t;
  (** room name to the ids of the sockets in it *)
  rooms : gmap string (gset string);
  sockets : gset string;
  (** events delivered to connections, oldest first *)
  outbox : list Delivery;
  (** responses sent, by request, oldest first *)
  responses : list (nat * Response);
  (** [Date.now()] *)
  clock : Z;
  (** [uuidv4()], [new ObjectId()] and the store's failures are oracles: the
      [n]-th call gets the [n]-th answer *)
  uuid_source : nat → string;
  uuid_count : nat;
  oid_source : nat → string;
  oid_count : nat;
  fault_source : nat → bool;
  db_count : nat
}.

Definition members (room : string) (w : World) : gset string :=
  default ∅ (rooms w !! room).

(** ** Effects *)

Inductive Eff : Type → Type :=
(* synchronous *)
| Uuidv4 : Eff string
| NewObjectId : Eff string
| DateNow : Eff Z
| ResJson (rid : nat) (st : nat) (b : Json) : Eff unit
| IoToEmit (room : string) (ev : string) (p : Payload) : Eff unit
| SocketToEmit (sid : string) (room : option string) (ev : string) (p : Payload) : Eff unit
| SocketJoin (sid : string) (room : string) : Eff unit
(* awaited store operations *)
| ConversationFindOneAll (a b : string) : Eff (option Conversation.t)
| ConversationFind (u : string) : Eff (list Conversation.t)
| ConversationSave (c : Conversation.t) : Eff unit
| MessageFind (cid : string) : Eff (list Message.t)
| MessageSave (m : Message.t) : Eff unit.

Definition is_store_op {X} (e : Eff X) : bool :=
  match e with
  | ConversationFindOneAll _ _ | ConversationFind _ | ConversationSave _
  | MessageFind _ | MessageSave _ => true
  | _ => false
  end.

(** [{ participants: { $all: [a, b] } }] *)
Definition all_of (a b : string) (c : Conversation.t) : Prop :=
  a ∈ Conversation.participants c ∧ b ∈ Conversation.participants c.

(** [{ participants: u }] on an array field: the array contains [u]. *)
Definition has_participant (u : string) (c : Conversation.t) : Prop :=
  u ∈ Conversation.participants c.

Definition in_conversation (cid : string) (m : Message.t) : Prop :=
  Message.conversationId m = cid.

#[global] Instance all_of_dec a b c : Decision (all_of a b c).
Proof. unfold all_of. apply _. Defined.
#[global] Instance has_participant_dec u c : Decision (has_participant u c).
Proof. unfold has_participant. apply _. Defined.
#[global] Instance in_conversation_dec cid m : Decision (in_conversation cid m).
Proof. unfold in_conversation. apply _. Defined.

(** The unique indexes of the [Conversation] collection: [_id] and
    [conversationId]. *)
Definition conversation_conflict (c : Conversation.t) (w : World) : bool :=
  bool_decide (Conversation._id c ∈ Conversation._id <$> conversations w)
  || bool_decide (Conversation.conversationId c
                    ∈ Conversation.conversationId <$> conversations w).

(** The unique index of the [Message] collection: [_id]. *)
Definition message_conflict (m : Message.t) (w : World) : bool :=
  bool_decide (Message._id m ∈ Message._id <$> messages w).

Definition set_conversations (l : list Conversation.t) (w : World) : World :=
  mkWorld l (messages w) (rooms w) (sockets w) (outbox w) (responses w)
    (clock w) (uuid_source w) (uuid_count w) (oid_source w) (oid_count w)
    (fault_source w) (db_count w).

Definition set_messages (l : list Message.t) (w : World) : World :=
  mkWorld (conversations w) l (rooms w) (sockets w) (outbox w) (responses w)
    (clock w) (uuid_source w) (uuid_count w) (oid_source w) (oid_count w)
    (fault_source w) (db_count w).

Definition set_rooms (r : gmap string (gset string)) (w : World) : World :=
  mkWorld (conversations w) (messages w) r (sockets w) (outbox w) (responses w)
    (clock w) (uuid_source w) (uuid_count w) (oid_source w) (oid_count w)
    (fault_source w) (db_count w).

Definition set_sockets (s : gset string) (w : World) : World :=
  mkWorld (conversations w) (messages w) (rooms w) s (outbox w) (responses w)
    (clock w) (uuid_source w) (uuid_count w) (oid_source w) (oid_count w)
    (fault_source w) (db_count w).

Definition set_outbox (o : list Delivery) (w : World) : World :=
  mkWorld (conversations w) (messages w) (rooms w) (sockets w) o (responses w)
    (clock w) (uuid_source w) (uuid_count w) (oid_source w) (oid_count w)
    (fault_source w) (db_count w).

Definition set_responses (r : list (nat * Response)) (w : World) : World :=
  mkWorld (conversations w) (messages w) (rooms w) (sockets w) (outbox w) r
    (clock w) (uuid_source w) (uuid_count w) (oid_source w) (oid_count w)
    (fault_source w) (db_count w).

Definition set_clock (t : Z) (w : World) : World :=
  mkWorld (conversations w) (messages w) (rooms w) (sockets w) (outbox w)
    (responses w) t (uuid_source w) (uuid_count w) (oid_source w) (oid_count w)
    (fault_source w) (db_count w).

Definition set_faults (f : nat → bool) (w : World) : World :=
  mkWorld (conversations w) (messages w) (rooms w) (sockets w) (outbox w)
    (responses w) (clock w) (uuid_source w) (uuid_count w) (oid_source w)
    (oid_count w) f (db_count w).

Definition next_uuid (w : World) : World :=
  mkWorld (conversations w) (messages w) (rooms w) (sockets w) (outbox w)
    (responses w) (clock w) (uuid_source w) (S (uuid_count w)) (oid_source w)
    (oid_count w) (fault_source w) (db_count w).

Definition next_oid (w : World) : World :=
  mkWorld (conversations w) (messages w) (rooms w) (sockets w) (outbox w)
    (responses w) (clock w) (uuid_source w) (uuid_count w) (oid_source w)
    (S (oid_count w)) (fault_source w) (db_count w).

Definition next_db (w : World) : World :=
  mkWorld (conversations w) (messages w) (rooms w) (sockets w) (outbox w)
    (responses w) (clock w) (uuid_source w) (uuid_count w) (oid_source w)
    (oid_count w) (fault_source w) (S (db_count w)).

(** Whether the store operation issued next fails. *)
Definition faulty (w : World) : bool := fault_source w (db_count w).

(** The deliveries of one emit to the sockets [to]. *)
Definition fanout (to : gset string) (ev : string) (p : Payload) : list Delivery :=
  (λ sid, mkDelivery sid ev p) <$> elements to.

(** The store's part of an operation, once it is known not to fail. *)
Definition store {X} (e : Eff X) (w : World) : Settled X * World :=
  match e in Eff X return Settled X * World with
  | ConversationFindOneAll a b =>
      (Fulfilled (head (filter (all_of a b) (conversations w))), w)
  | ConversationFind u =>
      (Fulfilled (filter (has_participant u) (conversations w)), w)
  | ConversationSave c =>
      if conversation_conflict c w then (Rejected DuplicateKey, w)
      else (Fulfilled (), set_conversations (conversations w ++ [c]) w)
  | MessageFind cid =>
      (Fulfilled (filter (in_conversation cid) (messages w)), w)
  | MessageSave m =>
      if message_conflict m w then (Rejected DuplicateKey, w)
      else (Fulfilled (), set_messages (messages w ++ [m]) w)
  | Uuidv4 => (Fulfilled (uuid_source w (uuid_count w)), next_uuid w)
  | NewObjectId => (Fulfilled (oid_source w (oid_count w)), next_oid w)
  | DateNow => (Fulfilled (clock w), w)
  | ResJson rid st b =>
      (Fulfilled (), set_responses (responses w ++ [(rid, mkResponse st b)]) w)
  | IoToEmit room ev p =>
      (Fulfilled (), set_outbox (outbox w ++ fanout (members room w) ev p) w)
  | SocketToEmit sid room ev p =>
      match room with
      | Some r =>
          (Fulfilled (),
           set_outbox (outbox w ++ fanout (members r w ∖ {[sid]}) ev p) w)
      | None => (Fulfilled (), w)
      end
  | SocketJoin sid room =>
      (Fulfilled (), set_rooms (<[room := {[sid]} ∪ members room w]> (rooms w)) w)
  end.

(** One effect against the world. *)
Definition exec {X} (e : Eff X) (w : World) : Settled X * World :=
  if is_store_op e then
    if faulty w then (Rejected StorageError, next_db w)
    else store e (next_db w)
  else store e w.

(** ** Programs *)

Inductive Prog (A : Type) : Type :=
| Ret (a : A)
| Throw (e : Error)
| Do {X : Type} (e : Eff X) (k : Settled X → Prog A).
Arguments Ret {A} a.
Arguments Throw {A} e.
Arguments Do {A X} e k.

Fixpoint bind {A B} (p : Prog A) (f : A → Prog B) : Prog B :=
  match p with
  | Ret a => f a
  | Throw e => Throw e
  | Do e k => Do e (λ r, bind (k r) f)
  end.

(** [try { p } catch (error) { h error }] *)
Fixpoint try_catch {A} (p : Prog A) (h : Error → Prog A) : Prog A :=
  match p with
  | Ret a => Ret a
  | Throw e => h e
  | Do e k => Do e (λ r, try_catch (k r) h)
  end.

(** Performing an effect; for a store operation this is [await]: a rejection
    is thrown at the point of the [await]. *)
Definition perform {X} (e : Eff X) : Prog X :=
  Do e (λ r, match r with Fulfilled x => Ret x | Rejected err => Throw err end).

Declare Scope prog_scope.
Delimit Scope prog_scope with prog.
Notation "'let*' x ':=' p 'in' q" := (bind p (λ x, q))
  (at level 10, x pattern, p at level 100, q at level 200) : prog_scope.
Abbreviation await := perform (only parsing).

(** How a handler's promise ends: it returns, or an exception escapes it. *)
Inductive Outcome (A : Type) : Type :=
| Returned (a : A)
| Uncaught (e : Error).
Arguments Returned {A} a.
Arguments Uncaught {A} e.

(** A program run to its end without interruption. *)
Fixpoint run {A} (p : Prog A) (w : World) : Outcome A * World :=
  match p with
  | Ret a => (Returned a, w)
  | Throw e => (Uncaught e, w)
  | Do e k => let '(r, w') := exec e w in run (k r) w'
  end.

(** ** The handlers of [src/index.js] *)

(** An HTTP request as the handlers see it: [req.body], the route parameter
    of [req.params], and [rid], which names the [res] object to answer on. *)
Record Request : Type := mkRequest {
  rid : nat;
  req_body : JsObject;
  req_param : string
}.

Definition res_json (req : Request) (st : nat) (b : Json) : Prog unit :=
  perform (ResJson (rid req) st b).

Definition error_message (e : Error) : string :=
  match e with
  | StorageError => "storage failure"
  | DuplicateKey => "E11000 duplicate key error"
  end.

Local Open Scope prog_scope.

(** [app.post('/api/conversations', ...)] *)
Definition post_conversations (req : Request) : Prog unit :=
  let senderUsername := req_body req !! "senderUsername" in
  let receiverUsername := req_body req !! "receiverUsername" in
  if negb (truthy senderUsername) || negb (truthy receiverUsername) then
    res_json req 400 (JMessage "Sender and receiver are required")
  else
    let sender := default "" senderUsername in
    let receiver := default "" receiverUsername in
    let* conversation := await (ConversationFindOneAll sender receiver) in
    match conversation with
    | None =>
        let* conversationId := perform Uuidv4 in
        let* oid := perform NewObjectId in
        let conversation := Conversation.mk oid [sender; receiver] conversationId in
        try_catch
          (let* _ := await (ConversationSave conversation) in
           res_json req 200 (JConversationId conversationId))
          (λ _, res_json req 500 (JMessage "Error creating conversation"))
    | Some conversation =>
        res_json req 200 (JConversationId (Conversation.conversationId conversation))
    end.

(** [app.get('/api/messages/conversation/:conversationId', ...)] *)
Definition get_messages_conversation (req : Request) : Prog unit :=
  let conversationId := req_param req in
  try_catch
    (let* messages := await (MessageFind conversationId) in
     res_json req 200 (JMessages messages))
    (λ _, res_json req 500 (JMessage "Error fetching messages")).

(** [convo.participants.find(participant => participant !== senderUsername)] *)
Definition other_participant (senderUsername : string) (convo : Conversation.t)
  : option string :=
  List.find (λ participant, bool_decide (participant ≠ senderUsername))
    (Conversation.participants convo).

(** The entry [userslist.map(convo => ...)] builds for one conversation. *)
Definition list_entry (senderUsername : string) (convo : Conversation.t) : ListEntry :=
  let receiverUsername := other_participant senderUsername convo in
  mkListEntry (Conversation.conversationId convo) receiverUsername.

(** [app.get('/api/messages/list/:senderUsername', ...)]; the projection
    [{ participants: 1, conversationId: 1, _id: 0 }] drops a field the
    handler never reads. *)
Definition get_messages_list (req : Request) : Prog unit :=
  let senderUsername := req_param req in
  try_catch
    (let* userslist := await (ConversationFind senderUsername) in
     let formattedList := list_entry senderUsername <$> userslist in
     res_json req 200 (JList formattedList))
    (λ error,
       res_json req 500 (JMessageError "Error fetching messages" (error_message error))).

(** [app.post('/api/messages', ...)]; [new Message(...)] draws the [_id] and
    fills [timestamp] with its default, [Date.now]. *)
Definition post_messages (req : Request) : Prog unit :=
  let conversationId := req_body req !! "conversationId" in
  let senderUsername := req_body req !! "senderUsername" in
  let receiverUsername := req_body req !! "receiverUsername" in
  let message := req_body req !! "message" in
  if negb (truthy conversationId) || negb (truthy senderUsername)
     || negb (truthy receiverUsername) || negb (truthy message) then
    res_json req 400
      (JMessage "Conversation ID, sender, receiver, and message are required")
  else
    let conversationId := default "" conversationId in
    let senderUsername := default "" senderUsername in
    try_catch
      (let* oid := perform NewObjectId in
       let* now := perform DateNow in
       let newMessage :=
         Message.mk oid conversationId senderUsername
           (default "" receiverUsername) (default "" message)
           senderUsername now in
       let* _ := await (MessageSave newMessage) in
       let* _ := perform (IoToEmit conversationId "newMessage" (PDocument newMessage)) in
       res_json req 200 (JDocument newMessage))
      (λ _, res_json req 500 (JMessage "Error saving message")).

(** The listeners registered on each [socket] in [io.on('connection', ...)];
    [socket] is the id of the connection the event arrived on. *)
Definition on_joinConversation (socket : string) (conversationId : string)
  : Prog unit :=
  perform (SocketJoin socket conversationId).

Definition on_offer (socket : string) (data : JsObject) : Prog unit :=
  perform (SocketToEmit socket (data !! "receiverId") "offer" (PData data)).

Definition on_answer (socket : string) (data : JsObject) : Prog unit :=
  perform (SocketToEmit socket (data !! "callerId") "answer" (PData data)).

Definition on_ice_candidate (socket : string) (data : JsObject) : Prog unit :=
  perform (SocketToEmit socket (data !! "targetId") "ice-candidate" (PData data)).

(** The three signaling events, with the property that addresses each. *)
Inductive Signal : Type := Offer | Answer | IceCandidate.

Definition signal_name (k : Signal) : string :=
  match k with
  | Offer => "offer"
  | Answer => "answer"
  | IceCandidate => "ice-candidate"
  end.

Definition target_field (k : Signal) : string :=
  match k with
  | Offer => "receiverId"
  | Answer => "callerId"
  | IceCandidate => "targetId"
  end.

Definition on_signal (k : Signal) (socket : string) (data : JsObject) : Prog unit :=
  match k with
  | Offer => on_offer socket data
  | Answer => on_answer socket data
  | IceCandidate => on_ice_candidate socket data
  end.

(** What Socket.IO does itself when a connection opens and closes. *)
Definition connect (sid : string) (w : World) : World :=
  set_sockets ({[sid]} ∪ sockets w)
    (set_rooms (<[sid := {[sid]} ∪ members sid w]> (rooms w)) w).

Definition disconnect (sid : string) (w : World) : World :=
  set_sockets (sockets w ∖ {[sid]})
    (set_rooms ((λ room, room ∖ {[sid]}) <$> rooms w) w).

(** ** Requests in flight *)

(** The synchronous stretch of a program: everything up to the next
    [await]ed store operation. *)
Fixpoint settle {A} (p : Prog A) (w : World) : Prog A * World :=
  match p with
  | Do e k =>
      if is_store_op e then (p, w)
      else let '(r, w') := exec e w in settle (k r) w'
  | _ => (p, w)
  end.

(** A suspended program is resumed: the store operation it waits for takes
    effect and the program runs on to its next [await]. *)
Definition resume {A} (p : Prog A) (w : World) : Prog A * World :=
  match p with
  | Do e k => let '(r, w') := exec e w in settle (k r) w'
  | _ => (p, w)
  end.

(** What the event loop does next: dispatch an arriving request to its
    handler, resume the [i]-th request in flight, or let time pass. *)
Inductive Action : Type :=
| Arrive (handler : Prog unit)
| Resume (i : nat)
| Tick (ms : nat).

Definition act (a : Action) (st : list (Prog unit) * World)
  : list (Prog unit) * World :=
  let '(pool, w) := st in
  match a with
  | Arrive handler =>
      let '(p, w') := settle handler w in (pool ++ [p], w')
  | Resume i =>
      match pool !! i with
      | Some p => let '(p', w') := resume p w in (<[i := p']> pool, w')
      | None => (pool, w)
      end
  | Tick ms => (pool, set_clock (clock w + Z.of_nat ms) w)
  end.

Definition schedule (l : list Action) (w : World) : list (Prog unit) * World :=
  foldl (λ st a, act a st) ([], w) l.

(** A fresh server: empty collections, nobody connected. *)
Definition boot (now : Z) (uuids oids : nat → string) (faults : nat → bool)
  : World :=
  mkWorld [] [] ∅ ∅ [] [] now uuids 0 oids 0 faults 0.

(** ** What each handler does, case by case *)

(** The world after the answer [st], [b] has been sent on [req]. *)
Definition answered (req : Request) (st : nat) (b : Json) (w : World) : World :=
  set_responses (responses w ++ [(rid req, mkResponse st b)]) w.

(** The create-or-get handler on a request that names both participants. *)
Definition post_conversations_result (req : Request) (a b : string) (w : World)
  : Outcome unit * World :=
  if faulty w then (Uncaught StorageError, next_db w)
  else
    match head (filter (all_of a b) (conversations w)) with
    | Some c =>
        (Returned (),
         answered req 200 (JConversationId (Conversation.conversationId c))
           (next_db w))
    | None =>
        let c := Conversation.mk (oid_source w (oid_count w)) [a; b]
                   (uuid_source w (uuid_count w)) in
        let w' := next_oid (next_uuid (next_db w)) in
        if faulty w' || conversation_conflict c w' then
          (Returned (),
           answered req 500 (JMessage "Error creating conversation") (next_db w'))
        else
          (Returned (),
           answered req 200 (JConversationId (uuid_source w (uuid_count w)))
             (set_conversations (conversations w ++ [c]) (next_db w')))
    end.

(** The document [new Message(...)] builds in world [w]. *)
Definition new_message (cid sender receiver text : string) (w : World) : Message.t :=
  Message.mk (oid_source w (oid_count w)) cid sender receiver text sender (clock w).

(** The send-message handler on a request that carries all four fields. *)
Definition post_messages_result (req : Request) (cid sender receiver text : string)
    (w : World) : Outcome unit * World :=
  let m := new_message cid sender receiver text w in
  let w' := next_oid w in
  if faulty w' || message_conflict m w' then
    (Returned (), answered req 500 (JMessage "Error saving message") (next_db w'))
  else
    (Returned (),
     answered req 200 (JDocument m)
       (set_outbox (outbox w ++ fanout (members cid w) "newMessage" (PDocument m))
          (set_messages (messages w ++ [m]) (next_db w')))).

(** The four required fields of a send-message body, when all are truthy. *)
Definition message_fields (req : Request) : option (string * string * string * string) :=
  let conversationId := req_body req !! "conversationId" in
  let senderUsername := req_body req !! "senderUsername" in
  let receiverUsername := req_body req !! "receiverUsername" in
  let message := req_body req !! "message" in
  if truthy conversationId && truthy senderUsername
     && truthy receiverUsername && truthy message then
    Some (default "" conversationId, default "" senderUsername,
          default "" receiverUsername, default "" message)
  else None.

(** The world after a signaling listener has run. *)
Definition on_signal_result (k : Signal) (socket : string) (data : JsObject)
    (w : World) : World :=
  match data !! target_field k with
  | Some target =>
      set_outbox
        (outbox w
           ++ fanout (members target w ∖ {[socket]}) (signal_name k) (PData data))
        w
  | None => w
  end.

(** What a signaling listener adds to the outbox. *)
Definition relayed (k : Signal) (socket : string) (data : JsObject) (w : World)
  : list Delivery :=
  match data !! target_field k with
  | Some target =>
      fanout (members target w ∖ {[socket]}) (signal_name k) (PData data)
  | None => []
  end.

(** ** The server handling one thing at a time *)

Inductive ServerEvent : Type :=
| PostConversations (req : Request)
| GetMessagesConversation (req : Request)
| GetMessagesList (req : Request)
| PostMessages (req : Request)
| Connection (sid : string)
| Disconnection (sid : string)
| JoinConversation (sid : string) (conversationId : string)
| Signaling (k : Signal) (sid : string) (data : JsObject)
| TimePasses (ms : nat).

Definition handle (ev : ServerEvent) (w : World) : World :=
  match ev with
  | PostConversations req => snd (run (post_conversations req) w)
  | GetMessagesConversation req => snd (run (get_messages_conversation req) w)
  | GetMessagesList req => snd (run (get_messages_list req) w)
  | PostMessages req => snd (run (post_messages req) w)
  | Connection sid => connect sid w
  | Disconnection sid => disconnect sid w
  | JoinConversation sid cid => snd (run (on_joinConversation sid cid) w)
  | Signaling k sid data => snd (run (on_signal k sid data) w)
  | TimePasses ms => set_clock (clock w + Z.of_nat ms) w
  end.

Definition serially (evs : list ServerEvent) (w : World) : World :=
  foldl (λ w ev, handle ev w) w evs.

(** ** Orders and invariants *)

(** Creation order of messages. *)
Definition by_timestamp (m1 m2 : Message.t) : Prop :=
  (Message.timestamp m1 ≤ Message.timestamp m2)%Z.

(** Every stored message was stamped no later than now, and the collection
    is in timestamp order. *)
Definition in_timestamp_order (w : World) : Prop :=
  StronglySorted by_timestamp (messages w)
  ∧ Forall (λ m, (Message.timestamp m ≤ clock w)%Z) (messages w).

(** No two records of the collection hold the same unordered participants. *)
Definition one_per_pair (l : list Conversation.t) : Prop :=
  ∀ i j c1 c2,
    l !! i = Some c1 → l !! j = Some c2 →
    Conversation.participants c1 ≡ₚ Conversation.participants c2 →
    i = j.

(** ** Sample data *)

Definition sample_uuid (n : nat) : string :=
  match n with
  | 0 => "3f2b8c1e-0000"
  | 1 => "a91d44c7-0001"
  | _ => "e07c5b52-0002"
  end.

Definition sample_oid (n : nat) : string :=
  match n with
  | 0 => "65a1f0000000000000000000"
  | 1 => "65a1f0000000000000000001"
  | 2 => "65a1f0000000000000000002"
  | _ => "65a1f0000000000000000003"
  end.

Definition never (_ : nat) : bool := false.
Definition always (_ : nat) : bool := true.

Definition fresh_server : World := boot 1700000000000 sample_uuid sample_oid never.

Definition conversation_request (n : nat) (sender receiver : string) : Request :=
  mkRequest n {[ "senderUsername" := sender; "receiverUsername" := receiver ]} "".

Definition message_request (n : nat) (cid sender receiver text : string) : Request :=
  mkRequest n
    {[ "conversationId" := cid; "senderUsername" := sender;
       "receiverUsername" := receiver; "message" := text ]} "".

Definition param_request (n : nat) (param : string) : Request :=
  mkRequest n ∅ param.

(** ** Scenarios *)

(** Alice and bob: the conversation exists, both are connected and have
    joined its room. *)
Definition alice_and_bob : World :=
  serially
    [ PostConversations (conversation_request 1 "alice" "bob");
      Connection "sock-1"; Connection "sock-2";
      JoinConversation "sock-1" "3f2b8c1e-0000";
      JoinConversation "sock-2" "3f2b8c1e-0000" ]
    fresh_server.

Definition hi_from_alice : Request :=
  message_request 2 "3f2b8c1e-0000" "alice" "bob" "hi".

Definition hi_stored : Message.t :=
  Message.mk "65a1f0000000000000000001" "3f2b8c1e-0000" "alice" "bob" "hi" "alice"
    1700000000000.

(** The same, on a server whose next store operation fails. *)
Definition alice_and_bob_store_failing : World :=
  set_faults always alice_and_bob.

(** The store is unreachable: every operation fails. *)
Definition store_down : World := boot 1700000000000 sample_uuid sample_oid always.

(** Alice opens a conversation with herself on a fresh server. *)
Definition after_self_conversation : World :=
  snd (run (post_conversations (conversation_request 1 "alice" "alice")) fresh_server).

(** First contact from both sides at once: both lookups are answered before
    either save is issued. *)
Definition first_contact_race : list Action :=
  [ Arrive (post_conversations (conversation_request 1 "alice" "bob"));
    Arrive (post_conversations (conversation_request 2 "bob" "alice"));
    Resume 0; Resume 1; Resume 0; Resume 1 ].

(** Alice and bob have a conversation; alice's message is built, then
    5 ms later bob's, and the store commits bob's save before alice's. *)
Definition overlapping_sends : list Action :=
  [ Arrive (post_conversations (conversation_request 1 "alice" "bob"));
    Resume 0; Resume 0;
    Arrive (post_messages (message_request 2 "3f2b8c1e-0000" "alice" "bob" "hi"));
    Tick 5;
    Arrive (post_messages (message_request 3 "3f2b8c1e-0000" "bob" "alice" "hello"));
    Resume 2; Resume 1 ].

(** One connection, which addresses an offer to itself. *)
Definition lone_caller : World := connect "sock-1" fresh_server.
Definition offer_to_self : JsObject :=
  {[ "receiverId" := "sock-1"; "sdp" := "v=0" ]}.

(** Two connections; the second has joined the room of a conversation, and
    the first addresses an offer to that room's name. *)
Definition caller_and_room_member : World :=
  snd (run (on_joinConversation "sock-2" "3f2b8c1e-0000")
         (connect "sock-2" (connect "sock-1" fresh_server))).
Definition offer_to_room : JsObject :=
  {[ "receiverId" := "3f2b8c1e-0000"; "sdp" := "v=0" ]}.

(** ** Missing and empty fields *)

(** A property that is [undefined] or the empty string: what the handlers'
    [!field] tests accept as missing. *)
Definition missing (v : option string) : Prop := v = None ∨ v = Some "".

(** ** Well-formed documents *)

(** A conversation as the create-or-get handler writes it: two participants,
    neither empty. *)
Definition two_participants (c : Conversation.t) : Prop :=
  ∃ a b, Conversation.participants c = [a; b] ∧ a ≠ "" ∧ b ≠ "".

(** A message as the send-message handler writes it: the four required
    fields non-empty, [whosend] the sender. *)
Definition complete_message (m : Message.t) : Prop :=
  Message.conversationId m ≠ "" ∧ Message.senderUsername m ≠ ""
  ∧ Message.receiverUsername m ≠ "" ∧ Message.message m ≠ ""
  ∧ Message.whosend m = Message.senderUsername m.

(** Every broadcast document is a stored message, sent as [newMessage] to
    a connection. *)
Definition broadcasts_are_stored (w : World) : Prop :=
  ∀ d m, d ∈ outbox w → d_payload d = PDocument m →
    m ∈ messages w ∧ d_event d = "newMessage".

(** ** Any number of requests in flight *)

(** The [try] block of the create-or-get handler, where it waits for the
    save of the conversation it has built. *)
Definition post_conversations_save (req : Request) (conversation : Conversation.t)
  : Prog unit :=
  try_catch
    (let* _ := await (ConversationSave conversation) in
     res_json req 200 (JConversationId (Conversation.conversationId conversation)))
    (λ _, res_json req 500 (JMessage "Error creating conversation")).

(** The [try] block of the send-message handler, where it waits for the save
    of the message it has built. *)
Definition post_messages_save (req : Request) (newMessage : Message.t) : Prog unit :=
  try_catch
    (let* _ := await (MessageSave newMessage) in
     let* _ := perform (IoToEmit (Message.conversationId newMessage) "newMessage"
                          (PDocument newMessage)) in
     res_json req 200 (JDocument newMessage))
    (λ _, res_json req 500 (JMessage "Error saving message")).

(** What can arrive at the server: a request for one of the four routes, or
    one of the events a connection emits. *)
Inductive Incoming : Type :=
| HttpPostConversations (req : Request)
| HttpGetMessagesConversation (req : Request)
| HttpGetMessagesList (req : Request)
| HttpPostMessages (req : Request)
| EmitJoinConversation (socket : string) (conversationId : string)
| EmitSignal (k : Signal) (socket : string) (data : JsObject).

Definition listener (i : Incoming) : Prog unit :=
  match i with
  | HttpPostConversations req => post_conversations req
  | HttpGetMessagesConversation req => get_messages_conversation req
  | HttpGetMessagesList req => get_messages_list req
  | HttpPostMessages req => post_messages req
  | EmitJoinConversation socket cid => on_joinConversation socket cid
  | EmitSignal k socket data => on_signal k socket data
  end.

Definition is_http (i : Incoming) : bool :=
  match i with
  | HttpPostConversations _ | HttpGetMessagesConversation _
  | HttpGetMessagesList _ | HttpPostMessages _ => true
  | _ => false
  end.

(** One turn of the event loop: something arrives and its listener runs to
    its first [await]; the store answers the [n]-th program and it runs on;
    time passes; a connection opens or closes. *)
Inductive LoopEvent : Type :=
| Dispatch (i : Incoming)
| Continue (n : nat)
| Elapse (ms : nat)
| Opened (sid : string)
| Closed (sid : string).

Definition turn (ev : LoopEvent) (st : list (Prog unit) * World)
  : list (Prog unit) * World :=
  match ev with
  | Dispatch i => act (Arrive (listener i)) st
  | Continue n => act (Resume n) st
  | Elapse ms => act (Tick ms) st
  | Opened sid => (st.1, connect sid st.2)
  | Closed sid => (st.1, disconnect sid st.2)
  end.

Definition event_loop (evs : list LoopEvent) (w : World) : list (Prog unit) * World :=
  foldl (λ st ev, turn ev st) ([], w) evs.

(** Where a listener of the server can stand between two turns. *)
Inductive in_flight : Prog unit → Prop :=
| finished : in_flight (Ret ())
| rejected (e : Error) : in_flight (Throw e)
| looking_up (req : Request) :
    truthy (req_body req !! "senderUsername") = true →
    truthy (req_body req !! "receiverUsername") = true →
    in_flight (post_conversations req)
| creating (req : Request) (c : Conversation.t) :
    two_participants c → in_flight (post_conversations_save req c)
| reading_messages (req : Request) : in_flight (get_messages_conversation req)
| reading_conversations (req : Request) : in_flight (get_messages_list req)
| saving (req : Request) (m : Message.t) :
    complete_message m → in_flight (post_messages_save req m).

(** A program waiting for the store, and one ended by an exception nobody
    caught. *)
Definition awaiting (p : Prog unit) : bool :=
  match p with Do _ _ => true | _ => false end.

Definition escaped (p : Prog unit) : bool :=
  match p with Throw _ => true | _ => false end.



Definition tally {X} (f : X → bool) (l : list X) : nat :=
  sum_list_with (λ x, Nat.b2n (f x)) l.

Definition is_http_arrival (ev : LoopEvent) : bool :=
  match ev with Dispatch i => is_http i | _ => false end.

(** What every world the server reaches satisfies, however its requests
    interleave. *)
Definition sound_store (w : World) : Prop :=
  Forall two_participants (conversations w)
  ∧ NoDup (Conversation.conversationId <$> conversations w)
  ∧ Forall complete_message (messages w)
  ∧ broadcasts_are_stored w.

(** Every HTTP request so far is answered, waiting, or was dropped. *)
Definition accounted (arrived : nat) (pool : list (Prog unit)) (w : World) : Prop :=
  length (responses w) + tally awaiting pool + tally escaped pool = arrived.

(** ** More scenarios *)

(** A generator of identifiers that repeats itself. *)
Definition stuck_uuid (_ : nat) : string := "3f2b8c1e-0000".

(** Alice and bob have their conversation, on a server whose [uuidv4] will
    return its identifier again. *)
Definition after_first_contact_stuck : World :=
  snd (run (post_conversations (conversation_request 1 "alice" "bob"))
         (boot 1700000000000 stuck_uuid sample_oid never)).

Definition alice_and_bob_record : Conversation.t :=
  Conversation.mk "65a1f0000000000000000000" ["alice"; "bob"] "3f2b8c1e-0000".

(** Both first contacts, one after the other, then a message. *)
Definition two_contacts_and_a_message : list ServerEvent :=
  [ PostConversations (conversation_request 1 "alice" "bob");
    PostConversations (conversation_request 2 "bob" "alice");
    PostMessages hi_from_alice;
    TimePasses 7 ].

(** A connection opens and joins the room; alice's message arrives and its
    save is answered. *)
Definition join_then_send : list LoopEvent :=
  [ Opened "sock-1";
    Dispatch (EmitJoinConversation "sock-1" "3f2b8c1e-0000");
    Dispatch (HttpPostMessages hi_from_alice);
    Continue 1 ].

Definition hi_stored_first : Message.t :=
  Message.mk "65a1f0000000000000000000" "3f2b8c1e-0000" "alice" "bob" "hi" "alice"
    1700000000000.

(** Alice writes to bob, and 7 ms later bob answers. *)
Definition hello_from_bob : Request :=
  message_request 3 "3f2b8c1e-0000" "bob" "alice" "hello".

Definition hello_stored : Message.t :=
  Message.mk "65a1f0000000000000000002" "3f2b8c1e-0000" "bob" "alice" "hello" "bob"
    1700000000007.

Definition two_messages_exchanged : list ServerEvent :=
  [ PostConversations (conversation_request 1 "alice" "bob");
    PostMessages hi_from_alice;
    TimePasses 7;
    PostMessages hello_from_bob ].

(** ** A process that an unhandled rejection ends *)

(** Where Node ends the process on an unhandled rejection, the loop stops at
    the first listener that ends in an exception nobody caught: nothing more
    is dispatched or resumed, and what was in flight stays unanswered.
    [event_loop] is the loop of a process that only warns and goes on; every
    state this one reaches, that one reaches too. *)
Definition turn_or_halt (ev : LoopEvent) (st : list (Prog unit) * World)
  : list (Prog unit) * World :=
  match tally escaped st.1 with
  | 0 => turn ev st
  | S _ => st
  end.

Definition event_loop_halting (evs : list LoopEvent) (w : World)
  : list (Prog unit) * World :=
  foldl (λ st ev, turn_or_halt ev st) ([], w) evs.

(** Only the first store operation fails. *)
Definition first_fails (n : nat) : bool := bool_decide (n = 0).

(** Alice's message is waiting for its save when a create-or-get lookup
    fails; the store would answer the save next. *)
Definition lookup_fails_during_send : list LoopEvent :=
  [ Dispatch (HttpPostMessages hi_from_alice);
    Dispatch (HttpPostConversations (conversation_request 3 "carol" "dave"));
    Continue 1;
    Continue 0 ].

(** ** Running programs *)

Section Running.
Context {A B : Type}.

Lemma run_bind (p : Prog A) (f : A → Prog B) (w : World) :
  run (bind p f) w =
  match run p w with
  | (Returned a, w') => run (f a) w'
  | (Uncaught e, w') => (Uncaught e, w')
  end.
Proof.
  revert w. induction p as [a|e|X e k IH]; intros w; simpl; try done.
  destruct (exec e w) as [r w']. apply IH.
Qed.

Lemma run_try_catch (p : Prog A) (h : Error → Prog A) (w : World) :
  run (try_catch p h) w =
  match run p w with
  | (Returned a, w') => (Returned a, w')
  | (Uncaught e, w') => run (h e) w'
  end.
Proof.
  revert w. induction p as [a|e|X e k IH]; intros w; simpl; try done.
  destruct (exec e w) as [r w']. apply IH.
Qed.

Lemma run_perform (e : Eff A) (w : World) :
  run (perform e) w =
  match exec e w with
  | (Fulfilled x, w') => (Returned x, w')
  | (Rejected err, w') => (Uncaught err, w')
  end.
Proof. simpl. by destruct (exec e w) as [[x|err] w']. Qed.

(** Running a program in stretches, one [await] after another, ends where
    running it without interruption does. *)
Lemma run_settle (p : Prog A) (w : World) :
  run (settle p w).1 (settle p w).2 = run p w.
Proof.
  revert w. induction p as [a|e|X e k IH]; intros w; simpl; try done.
  destruct (is_store_op e); [done|].
  destruct (exec e w) as [r w']. apply IH.
Qed.

Lemma run_resume (p : Prog A) (w : World) :
  run (resume p w).1 (resume p w).2 = run p w.
Proof.
  destruct p as [a|e|X e k]; simpl; try done.
  destruct (exec e w) as [r w']. apply run_settle.
Qed.
End Running.

(** ** The handlers, case by case *)

Lemma truthy_Some (s : string) : s ≠ "" → truthy (Some s) = true.
Proof. intros. by apply bool_decide_eq_true. Qed.

Lemma truthy_inv (v : option string) :
  truthy v = true → ∃ s, v = Some s ∧ s ≠ "".
Proof.
  destruct v as [s|]; [|done]. intros H%bool_decide_eq_true. eauto.
Qed.

Lemma message_fields_Some (req : Request) (cid s r text : string) :
  message_fields req = Some (cid, s, r, text) →
  req_body req !! "conversationId" = Some cid ∧ cid ≠ ""
  ∧ req_body req !! "senderUsername" = Some s ∧ s ≠ ""
  ∧ req_body req !! "receiverUsername" = Some r ∧ r ≠ ""
  ∧ req_body req !! "message" = Some text ∧ text ≠ "".
Proof.
  unfold message_fields.
  destruct (truthy (req_body req !! "conversationId")) eqn:H1; [|done].
  destruct (truthy (req_body req !! "senderUsername")) eqn:H2; [|done].
  destruct (truthy (req_body req !! "receiverUsername")) eqn:H3; [|done].
  destruct (truthy (req_body req !! "message")) eqn:H4; [|done].
  apply truthy_inv in H1 as (?&->&?), H2 as (?&->&?), H3 as (?&->&?), H4 as (?&->&?).
  simpl. intros [= <- <- <- <-]. done.
Qed.

Lemma post_conversations_run (req : Request) (a b : string) (w : World) :
  req_body req !! "senderUsername" = Some a →
  req_body req !! "receiverUsername" = Some b →
  a ≠ "" → b ≠ "" →
  run (post_conversations req) w = post_conversations_result req a b w.
Proof.
  intros Ha Hb Hna Hnb. unfold post_conversations, post_conversations_result.
  rewrite Ha, Hb, !truthy_Some by done. simpl negb. simpl orb. cbv iota.
  rewrite run_bind, run_perform. unfold exec at 1. simpl is_store_op. cbv iota.
  destruct (faulty w) eqn:Hf; [done|]. simpl store.
  destruct (head (filter (all_of a b) (conversations w))) as [c|]; [done|].
  simpl. unfold exec, faulty. simpl.
  destruct (fault_source w (S (db_count w))); [done|]. simpl.
  by destruct (conversation_conflict _ _).
Qed.

Lemma post_conversations_invalid (req : Request) (w : World) :
  truthy (req_body req !! "senderUsername")
  && truthy (req_body req !! "receiverUsername") = false →
  run (post_conversations req) w =
  (Returned (), answered req 400 (JMessage "Sender and receiver are required") w).
Proof.
  intros H. unfold post_conversations.
  destruct (truthy (req_body req !! "senderUsername")),
           (truthy (req_body req !! "receiverUsername")); done.
Qed.

Lemma post_messages_run (req : Request) (cid s r text : string) (w : World) :
  message_fields req = Some (cid, s, r, text) →
  run (post_messages req) w = post_messages_result req cid s r text w.
Proof.
  intros (H1&?&H2&?&H3&?&H4&?)%message_fields_Some.
  unfold post_messages, post_messages_result.
  rewrite H1, H2, H3, H4, !truthy_Some by done. simpl negb. simpl orb. cbv iota.
  simpl. unfold exec, faulty. simpl.
  destruct (fault_source w (db_count w)); [done|]. simpl.
  unfold new_message. by destruct (message_conflict _ _).
Qed.

Lemma post_messages_invalid (req : Request) (w : World) :
  message_fields req = None →
  run (post_messages req) w =
  (Returned (),
   answered req 400
     (JMessage "Conversation ID, sender, receiver, and message are required") w).
Proof.
  unfold message_fields, post_messages.
  destruct (truthy (req_body req !! "conversationId")),
           (truthy (req_body req !! "senderUsername")),
           (truthy (req_body req !! "receiverUsername")),
           (truthy (req_body req !! "message")); done.
Qed.

Lemma get_messages_conversation_run (req : Request) (w : World) :
  run (get_messages_conversation req) w =
  if faulty w then
    (Returned (), answered req 500 (JMessage "Error fetching messages") (next_db w))
  else
    (Returned (),
     answered req 200
       (JMessages (filter (in_conversation (req_param req)) (messages w)))
       (next_db w)).
Proof.
  unfold get_messages_conversation. simpl. unfold exec. simpl.
  by destruct (faulty w).
Qed.

Lemma get_messages_list_run (req : Request) (w : World) :
  run (get_messages_list req) w =
  if faulty w then
    (Returned (),
     answered req 500
       (JMessageError "Error fetching messages" (error_message StorageError))
       (next_db w))
  else
    (Returned (),
     answered req 200
       (JList (list_entry (req_param req)
                 <$> filter (has_participant (req_param req)) (conversations w)))
       (next_db w)).
Proof.
  unfold get_messages_list. simpl. unfold exec. simpl.
  by destruct (faulty w).
Qed.

Lemma on_signal_run (k : Signal) (socket : string) (data : JsObject) (w : World) :
  run (on_signal k socket data) w = (Returned (), on_signal_result k socket data w).
Proof.
  unfold on_signal_result.
  destruct k; simpl; unfold exec; simpl; by destruct (data !! _).
Qed.

(** What a create-or-get call changes: nothing but, at most, one record
    appended for a pair that had none. *)
Lemma post_conversations_effect (req : Request) (w : World) :
  let w' := snd (run (post_conversations req) w) in
  messages w' = messages w ∧ clock w' = clock w
  ∧ (conversations w' = conversations w
     ∨ ∃ a b oid cid,
         filter (all_of a b) (conversations w) = []
         ∧ conversations w' = conversations w ++ [Conversation.mk oid [a; b] cid]).
Proof.
  destruct (truthy (req_body req !! "senderUsername")) eqn:Hs;
    [destruct (truthy (req_body req !! "receiverUsername")) eqn:Hr|].
  - apply truthy_inv in Hs as (a & Ha & Hna), Hr as (b & Hb & Hnb).
    rewrite (post_conversations_run req a b) by done.
    unfold post_conversations_result. destruct (faulty w); [by auto|].
    destruct (head (filter (all_of a b) (conversations w))) eqn:Hhd; [by auto|].
    destruct (_ || _); [by auto|]. simpl. do 2 (split; [done|]). right.
    apply head_None in Hhd. exists a, b. by eexists _, _.
  - rewrite post_conversations_invalid by (by rewrite Hs, Hr). by auto.
  - rewrite post_conversations_invalid by (by rewrite Hs). by auto.
Qed.

(** What a send-message call changes: nothing but, at most, one message
    appended, stamped with the current time. *)
Lemma post_messages_effect (req : Request) (w : World) :
  let w' := snd (run (post_messages req) w) in
  conversations w' = conversations w ∧ clock w' = clock w
  ∧ (messages w' = messages w
     ∨ ∃ m, Message.timestamp m = clock w ∧ messages w' = messages w ++ [m]).
Proof.
  destruct (message_fields req) as [[[[cid s] r] text]|] eqn:Hreq.
  - rewrite (post_messages_run _ _ _ _ _ _ Hreq). unfold post_messages_result.
    destruct (_ || _); [by auto|]. simpl. do 2 (split; [done|]). right.
    by exists (new_message cid s r text w).
  - rewrite (post_messages_invalid _ _ Hreq). by auto.
Qed.

(** ** Conversation directory *)

Lemma all_of_comm (a b : string) (c : Conversation.t) :
  all_of a b c ↔ all_of b a c.
Proof. unfold all_of. tauto. Qed.

Lemma find_one_all_comm (a b : string) (l : list Conversation.t) :
  filter (all_of a b) l = filter (all_of b a) l.
Proof. apply list_filter_iff. intros c. apply all_of_comm. Qed.

(** Two answers appended to the same log of responses are the same answer. *)
Ltac same_answer H :=
  simpl in H; apply app_inv_head in H; simplify_eq.

(** What a create-or-get call that answered 200 with [x] leaves behind: the
    first conversation of the collection holding both participants has
    identifier [x]. *)
Lemma post_conversations_result_found (req : Request) (a b x : string) (w w1 : World) :
  post_conversations_result req a b w = (Returned (), w1) →
  responses w1 = responses w ++ [(rid req, mkResponse 200 (JConversationId x))] →
  ∃ c, head (filter (all_of a b) (conversations w1)) = Some c
       ∧ Conversation.conversationId c = x.
Proof.
  unfold post_conversations_result. intros Hrun Hres.
  destruct (faulty w); [done|].
  destruct (head (filter (all_of a b) (conversations w))) as [c|] eqn:Hhd.
  - injection Hrun as <-. same_answer Hres. exists c. by split.
  - destruct (_ || _).
    + injection Hrun as <-. same_answer Hres.
    + injection Hrun as <-. same_answer Hres.
      exists (Conversation.mk (oid_source w (oid_count w)) [a; b]
                (uuid_source w (uuid_count w))).
      split; [|done]. simpl.
      apply head_None in Hhd. rewrite filter_app, Hhd. simpl.
      rewrite filter_cons_True; [done|].
      unfold all_of; simpl. set_solver.
Qed.

(** The store only grows: whatever the server handles, the conversations
    it held stay where they were. *)
Lemma handle_appends (ev : ServerEvent) (w : World) :
  conversations w `prefix_of` conversations (handle ev w).
Proof.
  destruct ev as [req|req|req|req|sid|sid|sid cid|k sid data|ms]; cbn [handle];
    try done.
  - destruct (post_conversations_effect req w)
      as (_ & _ & [-> | (a & b & oid & cid & _ & ->)]); [done|].
    by apply prefix_app_r.
  - rewrite get_messages_conversation_run. by destruct (faulty w).
  - rewrite get_messages_list_run. by destruct (faulty w).
  - by destruct (post_messages_effect req w) as (-> & _).
  - rewrite on_signal_run. unfold on_signal_result. simpl.
    by destruct (data !! target_field k).
Qed.

Lemma serially_appends (evs : list ServerEvent) (w : World) :
  conversations w `prefix_of` conversations (serially evs w).
Proof.
  unfold serially. revert w. induction evs as [|ev evs IH]; intros w; simpl; [done|].
  etrans; [apply handle_appends|apply IH].
Qed.

(** Handled alone, the create-or-get call is idempotent and indifferent to
    the order of its arguments: for non-empty [a] and [b], once a call for
    [(a, b)] that ran from its lookup to its answer with no other request in
    between has answered with identifier [x], every later call for the
    pair, in either argument order, whose lookup the store answers, returns
    the same [x], the identifier of a persisted conversation holding both,
    and creates no record; "later" is any store that still begins with the
    conversations held then. *)
Lemma resolve_idempotent_when_handled_alone
    (req req' : Request) (a b s r x : string) (w w1 w2 : World) :
  a ≠ "" → b ≠ "" →
  req_body req !! "senderUsername" = Some a →
  req_body req !! "receiverUsername" = Some b →
  run (post_conversations req) w = (Returned (), w1) →
  responses w1 = responses w ++ [(rid req, mkResponse 200 (JConversationId x))] →
  (s = a ∧ r = b) ∨ (s = b ∧ r = a) →
  req_body req' !! "senderUsername" = Some s →
  req_body req' !! "receiverUsername" = Some r →
  conversations w1 `prefix_of` conversations w2 →
  faulty w2 = false →
  ∃ w3,
    run (post_conversations req') w2 = (Returned (), w3)
    ∧ responses w3 = responses w2 ++ [(rid req', mkResponse 200 (JConversationId x))]
    ∧ conversations w3 = conversations w2
    ∧ ∃ c, c ∈ conversations w1 ∧ Conversation.conversationId c = x ∧ all_of a b c.
Proof.
  intros Hna Hnb Ha Hb Hrun Hres Hsr Hs Hr [more Hconv] Hok.
  rewrite (post_conversations_run req a b) in Hrun by done.
  destruct (post_conversations_result_found _ _ _ _ _ _ Hrun Hres) as (c & Hhd & Hx).
  assert (head (filter (all_of s r) (conversations w2)) = Some c) as Hhd2.
  { rewrite Hconv, filter_app.
    assert (filter (all_of s r) (conversations w1) = filter (all_of a b) (conversations w1))
      as -> by (destruct Hsr as [[-> ->]|[-> ->]]; [done|apply find_one_all_comm]).
    apply head_Some in Hhd as [l ->]. done. }
  assert (s ≠ "" ∧ r ≠ "") as [Hns Hnr] by (destruct Hsr as [[-> ->]|[-> ->]]; done).
  rewrite (post_conversations_run req' s r) by done.
  unfold post_conversations_result. rewrite Hok, Hhd2, Hx.
  eexists. split; [done|]. simpl. repeat split; try done.
  exists c. apply head_Some_elem_of in Hhd as Hin.
  by apply list_elem_of_filter in Hin as [Hall Hin].
Qed.

(** A failed creation is answered 500: the [save] is inside the handler's
    [try]. *)
Lemma post_conversations_save_failure (req : Request) (a b : string) (w : World) :
  req_body req !! "senderUsername" = Some a →
  req_body req !! "receiverUsername" = Some b →
  a ≠ "" → b ≠ "" →
  faulty w = false →
  head (filter (all_of a b) (conversations w)) = None →
  faulty (next_db w) = true →
  run (post_conversations req) w =
  (Returned (),
   answered req 500 (JMessage "Error creating conversation")
     (next_db (next_oid (next_uuid (next_db w))))).
Proof.
  intros Ha Hb Hna Hnb Hok Hnone Hfail.
  rewrite (post_conversations_run req a b) by done.
  unfold post_conversations_result. rewrite Hok, Hnone.
  change (faulty (next_oid (next_uuid (next_db w)))) with (faulty (next_db w)).
  by rewrite Hfail.
Qed.

(** A failed lookup is not: the [findOne] is awaited outside the [try], so
    the rejection escapes the handler and no answer is sent. *)
Lemma post_conversations_lookup_failure (req : Request) (a b : string) (w : World) :
  req_body req !! "senderUsername" = Some a →
  req_body req !! "receiverUsername" = Some b →
  a ≠ "" → b ≠ "" →
  faulty w = true →
  run (post_conversations req) w = (Uncaught StorageError, next_db w).
Proof.
  intros Ha Hb Hna Hnb Hfail.
  rewrite (post_conversations_run req a b) by done.
  unfold post_conversations_result. by rewrite Hfail.
Qed.

(** C6 fails on the lookup: with the store down, a well-formed create-or-get
    request ends in an uncaught rejection and no response, not a 500. *)
Lemma C6_lookup_failure_is_not_answered :
  fst (run (post_conversations (conversation_request 1 "alice" "bob")) store_down)
  = Uncaught StorageError
  ∧ responses
      (snd (run (post_conversations (conversation_request 1 "alice" "bob")) store_down))
    = [].
Proof. split; by vm_compute. Qed.

(** C2 fails: two first-contact requests for one pair, one from each side,
    whose lookups are both answered before either save, each create a
    record; both are answered 200, with different identifiers. *)
Lemma C2_concurrent_first_contact_creates_two :
  let w := snd (schedule first_contact_race fresh_server) in
  fst (schedule first_contact_race fresh_server) = [Ret (); Ret ()]
  ∧ conversations w
    = [ Conversation.mk "65a1f0000000000000000000" ["alice"; "bob"] "3f2b8c1e-0000";
        Conversation.mk "65a1f0000000000000000001" ["bob"; "alice"] "a91d44c7-0001" ]
  ∧ responses w
    = [ (1, mkResponse 200 (JConversationId "3f2b8c1e-0000"));
        (2, mkResponse 200 (JConversationId "a91d44c7-0001")) ]
  ∧ ¬ one_per_pair (conversations w).
Proof.
  intros w.
  assert (conversations w
          = [ Conversation.mk "65a1f0000000000000000000" ["alice"; "bob"] "3f2b8c1e-0000";
              Conversation.mk "65a1f0000000000000000001" ["bob"; "alice"] "a91d44c7-0001" ])
    as Hc by (by vm_compute).
  split; [by vm_compute|]. split; [done|]. split; [by vm_compute|].
  rewrite Hc. intros Hone.
  assert (0 = 1) as Heq; [|done].
  eapply Hone; [done|done|]. simpl. apply Permutation_swap.
Qed.

(** C1 fails when first contact comes from both sides at once: the call for
    (alice, bob) and the call for (bob, alice) are answered with different
    identifiers, and a later call for (bob, alice), with nothing else in
    flight, is answered with the other identifier than bob's first answer.
    The defect is the unguarded find-then-save of the race above. *)
Lemma C1_first_contact_race_breaks_idempotence :
  let w := snd (schedule first_contact_race fresh_server) in
  let again := conversation_request 3 "bob" "alice" in
  responses w
  = [ (1, mkResponse 200 (JConversationId "3f2b8c1e-0000"));
      (2, mkResponse 200 (JConversationId "a91d44c7-0001")) ]
  ∧ run (post_conversations again) w
    = (Returned (),
       answered again 200 (JConversationId "3f2b8c1e-0000") (next_db w))
  ∧ "3f2b8c1e-0000" ≠ "a91d44c7-0001".
Proof.
  intros w again. split; [by vm_compute|]. split; [|done].
  rewrite (post_conversations_run again "bob" "alice") by done.
  unfold post_conversations_result.
  assert (faulty w = false) as -> by (by vm_compute).
  assert (head (filter (all_of "bob" "alice") (conversations w))
          = Some (Conversation.mk "65a1f0000000000000000000" ["alice"; "bob"]
                    "3f2b8c1e-0000")) as -> by (by vm_compute).
  done.
Qed.

Lemma one_per_pair_snoc (l : list Conversation.t) (a b oid cid : string) :
  one_per_pair l → filter (all_of a b) l = [] →
  one_per_pair (l ++ [Conversation.mk oid [a; b] cid]).
Proof.
  intros Hl Hnone i j c1 c2 Hi Hj Hperm.
  assert (∀ c, c ∈ l → ¬ Conversation.participants c ≡ₚ [a; b]) as Hfresh.
  { intros c Hc Hp. eapply (filter_nil_not_elem_of _ _ c); [done| |done].
    unfold all_of. rewrite Hp. set_solver. }
  apply lookup_app_Some in Hi as [Hi|[Hi1 Hi2]], Hj as [Hj|[Hj1 Hj2]].
  - by eapply Hl.
  - apply list_lookup_singleton_Some in Hj2 as [_ <-].
    destruct (Hfresh c1); [by eapply list_elem_of_lookup_2|done].
  - apply list_lookup_singleton_Some in Hi2 as [_ <-].
    destruct (Hfresh c2); [by eapply list_elem_of_lookup_2|done].
  - apply list_lookup_singleton_Some in Hi2 as [? _], Hj2 as [? _]. lia.
Qed.

Lemma handle_keeps_pairs (ev : ServerEvent) (w : World) :
  one_per_pair (conversations w) → one_per_pair (conversations (handle ev w)).
Proof.
  intros Hw. destruct ev as [req|req|req|req|sid|sid|sid cid|k sid data|ms]; cbn [handle].
  - destruct (post_conversations_effect req w)
      as (_ & _ & [Hc|(a & b & oid & cid & Hnone & Hc)]); rewrite Hc; [done|].
    by apply one_per_pair_snoc.
  - rewrite get_messages_conversation_run. by destruct (faulty w).
  - rewrite get_messages_list_run. by destruct (faulty w).
  - destruct (post_messages_effect req w) as (Hc & _). by rewrite Hc.
  - done.
  - done.
  - done.
  - rewrite on_signal_run. unfold on_signal_result. simpl.
    by destruct (data !! target_field k).
  - done.
Qed.

(** Handling one event at a time from boot on, the server holds at most
    one conversation per unordered pair. *)
Lemma serially_one_per_pair (evs : list ServerEvent) (now : Z)
    (uuids oids : nat → string) (faults : nat → bool) :
  one_per_pair (conversations (serially evs (boot now uuids oids faults))).
Proof.
  unfold serially.
  assert (one_per_pair (conversations (boot now uuids oids faults))) as Hboot
    by (by intros i j c1 c2 Hi).
  revert Hboot. generalize (boot now uuids oids faults).
  induction evs as [|ev evs IH]; intros w Hw; simpl; [done|].
  apply IH. by apply handle_keeps_pairs.
Qed.

(** ** Message store and room broadcast *)

Lemma elem_of_fanout (d : Delivery) (to : gset string) (ev : string) (p : Payload) :
  d ∈ fanout to ev p ↔ d_to d ∈ to ∧ d_event d = ev ∧ d_payload d = p.
Proof.
  unfold fanout. rewrite list_elem_of_fmap. split.
  - intros (sid & -> & Hin%elem_of_elements). done.
  - intros (Hin & <- & <-). exists (d_to d). split; [by destruct d|].
    by apply elem_of_elements.
Qed.

Lemma snoc_neq {X} (l : list X) (x : X) : l ≠ l ++ [x].
Proof.
  intros H. apply (f_equal length) in H. rewrite length_app in H. simpl in H. lia.
Qed.

(** C3. Whenever the send-message handler persists a message [m], a
    [newMessage] event carrying [m] is delivered to every connection that is
    a member of the room named by [m]'s conversationId, the sender's own
    connection included when it is a member: the emit goes to the whole
    room. *)
Theorem C3_new_message_reaches_every_room_member
    (req : Request) (w w' : World) (o : Outcome unit) (m : Message.t) :
  run (post_messages req) w = (o, w') →
  messages w' = messages w ++ [m] →
  rooms w' = rooms w
  ∧ outbox w' =
      outbox w ++ fanout (members (Message.conversationId m) w') "newMessage" (PDocument m)
  ∧ ∀ sid, sid ∈ members (Message.conversationId m) w' →
      mkDelivery sid "newMessage" (PDocument m) ∈ outbox w'.
Proof.
  intros Hrun Hsaved.
  destruct (message_fields req) as [[[[cid s] r] text]|] eqn:Hreq.
  - rewrite (post_messages_run _ _ _ _ _ _ Hreq) in Hrun.
    unfold post_messages_result in Hrun. destruct (_ || _).
    + injection Hrun as <- <-. simpl in Hsaved. by apply snoc_neq in Hsaved.
    + injection Hrun as <- <-. simpl in Hsaved.
      apply app_inv_head in Hsaved as [= <-].
      split; [done|]. split; [done|].
      intros sid Hsid. simpl. apply elem_of_app. right.
      by apply elem_of_fanout.
  - rewrite (post_messages_invalid _ _ Hreq) in Hrun.
    injection Hrun as <- <-. simpl in Hsaved. by apply snoc_neq in Hsaved.
Qed.

(** The spec's scenario: alice sends "hi", and bob's connection (and her
    own) receives it. *)
Example bob_receives_hi :
  mkDelivery "sock-2" "newMessage" (PDocument hi_stored)
    ∈ outbox (snd (run (post_messages hi_from_alice) alice_and_bob))
  ∧ mkDelivery "sock-1" "newMessage" (PDocument hi_stored)
    ∈ outbox (snd (run (post_messages hi_from_alice) alice_and_bob)).
Proof.
  assert (outbox (snd (run (post_messages hi_from_alice) alice_and_bob))
          = fanout {[ "sock-1"; "sock-2" ]} "newMessage" (PDocument hi_stored))
    as -> by (by vm_compute).
  split; apply elem_of_fanout; set_solver.
Qed.

(** C7. When the store rejects the save of a send-message call, the handler
    answers 500 with [Error saving message], delivers no event to anyone and
    leaves the collection as it was: the failure reaches the caller. *)
Theorem C7_save_failure_is_500_without_broadcast
    (req : Request) (cid s r text : string) (w w_ : World) (e : Error) :
  message_fields req = Some (cid, s, r, text) →
  exec (MessageSave (new_message cid s r text w)) (next_oid w) = (Rejected e, w_) →
  ∃ w',
    run (post_messages req) w = (Returned (), w')
    ∧ responses w' =
        responses w ++ [(rid req, mkResponse 500 (JMessage "Error saving message"))]
    ∧ outbox w' = outbox w
    ∧ messages w' = messages w.
Proof.
  intros Hreq Hsave. rewrite (post_messages_run _ _ _ _ _ _ Hreq).
  unfold post_messages_result. unfold exec in Hsave.
  change (is_store_op _) with true in Hsave. cbv iota in Hsave.
  destruct (faulty (next_oid w)); simpl orb; cbv iota.
  - by eexists.
  - unfold store in Hsave.
    change (message_conflict _ (next_db (next_oid w)))
      with (message_conflict (new_message cid s r text w) (next_oid w)) in Hsave.
    destruct (message_conflict _ _); [by eexists|done].
Qed.

(** C8. A send-message call with all four fields that answers 200 has
    stored exactly one new document, with the request's conversationId,
    senderUsername, receiverUsername and message, [whosend] equal to the
    sender's username and [timestamp] the clock's reading when the document
    was built, and the answer is that stored document with its [_id]. *)
Theorem C8_stored_message_shape
    (req : Request) (cid s r text : string) (w w' : World) (o : Outcome unit)
    (b : Json) :
  message_fields req = Some (cid, s, r, text) →
  run (post_messages req) w = (o, w') →
  responses w' = responses w ++ [(rid req, mkResponse 200 b)] →
  let m :=
    {| Message._id := oid_source w (oid_count w);
       Message.conversationId := cid;
       Message.senderUsername := s;
       Message.receiverUsername := r;
       Message.message := text;
       Message.whosend := s;
       Message.timestamp := clock w |} in
  messages w' = messages w ++ [m] ∧ b = JDocument m.
Proof.
  intros Hreq Hrun Hres. rewrite (post_messages_run _ _ _ _ _ _ Hreq) in Hrun.
  unfold post_messages_result in Hrun. destruct (_ || _).
  - injection Hrun as <- <-. same_answer Hres.
  - injection Hrun as <- <-. same_answer Hres. done.
Qed.

(** ** Queries *)

(** The list-messages query filters the collection and sorts nothing, so
    its answer is in timestamp order exactly as far as the collection is.
    Requests handled one after another keep it so; requests in flight
    together need not, as [overlapping_sends] shows. *)

Lemma StronglySorted_filter {X} (R : relation X) (P : X → Prop)
    `{!∀ x, Decision (P x)} (l : list X) :
  StronglySorted R l → StronglySorted R (filter P l).
Proof.
  induction 1 as [|x l Hl IH Hx]; [constructor|].
  rewrite filter_cons. destruct (decide (P x)); [|done].
  constructor; [done|]. apply Forall_forall. intros y [_ Hy]%list_elem_of_filter.
  by eapply Forall_forall in Hx.
Qed.

Lemma filter_none {X} (P : X → Prop) `{!∀ x, Decision (P x)} (l : list X) :
  (∀ x, x ∈ l → ¬ P x) → filter P l = [].
Proof.
  intros Hnone. destruct (filter P l) as [|x l'] eqn:Hf; [done|].
  assert (x ∈ filter P l) as [HP Hx]%list_elem_of_filter by (rewrite Hf; left).
  by destruct (Hnone x).
Qed.

#[local] Instance by_timestamp_trans : Transitive by_timestamp.
Proof. unfold by_timestamp. intros x y z. lia. Qed.

Lemma Sorted_filter_by_timestamp (P : Message.t → Prop) `{!∀ x, Decision (P x)}
    (l : list Message.t) :
  Sorted by_timestamp l → Sorted by_timestamp (filter P l).
Proof.
  intros Hl. apply StronglySorted_Sorted, StronglySorted_filter.
  apply Sorted_StronglySorted; [apply by_timestamp_trans|exact Hl].
Qed.

(** C5 (as amended). When the store answers the read, the list-messages
    query answers 200 with exactly the messages of that conversation, in the
    order the store holds them (insertion order; no sort is applied), which
    is ascending creation timestamp whenever the collection itself is in that
    order; for a conversation with no messages, or one that does not exist,
    the answer is the empty sequence and not an error. *)
Theorem C5_list_messages_in_store_order (req : Request) (w : World) :
  faulty w = false →
  ∃ w' found,
    run (get_messages_conversation req) w = (Returned (), w')
    ∧ responses w' = responses w ++ [(rid req, mkResponse 200 (JMessages found))]
    ∧ found = filter (in_conversation (req_param req)) (messages w)
    ∧ ((∀ m, m ∈ messages w → Message.conversationId m ≠ req_param req) →
       found = [])
    ∧ (Sorted by_timestamp (messages w) → Sorted by_timestamp found).
Proof.
  intros Hok. rewrite get_messages_conversation_run, Hok.
  eexists _, _. split; [done|]. split; [done|]. split; [done|]. split.
  - intros Hnone. apply filter_none. intros m Hm. by apply Hnone.
  - apply Sorted_filter_by_timestamp; apply _.
Qed.

(** C5, as stated, fails: two sends that overlap can be committed in the
    opposite order of their timestamps, and the query, which does not sort,
    then lists the later message first. *)
Lemma C5_counterexample :
  let w := snd (schedule overlapping_sends fresh_server) in
  ∃ later earlier,
    responses (snd (run (get_messages_conversation (param_request 4 "3f2b8c1e-0000")) w))
    = responses w ++ [(4, mkResponse 200 (JMessages [later; earlier]))]
    ∧ (Message.timestamp earlier < Message.timestamp later)%Z
    ∧ ¬ Sorted by_timestamp [later; earlier].
Proof.
  eexists _, _. split; [by vm_compute|]. split; [done|].
  intros Hs. apply Sorted_inv in Hs as [_ Hhd]. apply HdRel_inv in Hhd.
  by vm_compute in Hhd.
Qed.

Lemma in_timestamp_order_snoc (w : World) (m : Message.t) :
  in_timestamp_order w → Message.timestamp m = clock w →
  StronglySorted by_timestamp (messages w ++ [m])
  ∧ Forall (λ m, (Message.timestamp m ≤ clock w)%Z) (messages w ++ [m]).
Proof.
  intros [Hsorted Hpast] Hm. split.
  - apply StronglySorted_app_2; [|done|repeat constructor].
    intros m1 m2 Hm1 ->%list_elem_of_singleton. unfold by_timestamp. rewrite Hm.
    by eapply Forall_forall in Hpast.
  - apply Forall_app. split; [done|]. constructor; [lia|constructor].
Qed.

Lemma handle_keeps_order (ev : ServerEvent) (w : World) :
  in_timestamp_order w → in_timestamp_order (handle ev w).
Proof.
  intros Hw. destruct ev as [req|req|req|req|sid|sid|sid cid|k sid data|ms]; cbn [handle].
  - destruct (post_conversations_effect req w) as (Hm & Hc & _).
    unfold in_timestamp_order. by rewrite Hm, Hc.
  - rewrite get_messages_conversation_run. by destruct (faulty w).
  - rewrite get_messages_list_run. by destruct (faulty w).
  - destruct (post_messages_effect req w) as (_ & Hc & [Hm|(m & Hts & Hm)]);
      unfold in_timestamp_order; rewrite Hm, Hc; [done|].
    by apply in_timestamp_order_snoc.
  - done.
  - done.
  - done.
  - rewrite on_signal_run. unfold on_signal_result. simpl.
    by destruct (data !! target_field k).
  - destruct Hw as [Hsorted Hpast]. split; [done|]. simpl.
    eapply Forall_impl; [done|]. simpl. lia.
Qed.

(** From boot on, a server that handles one event at a time keeps its
    messages in timestamp order. *)
Lemma serially_in_timestamp_order (evs : list ServerEvent) (now : Z)
    (uuids oids : nat → string) (faults : nat → bool) :
  in_timestamp_order (serially evs (boot now uuids oids faults)).
Proof.
  unfold serially.
  assert (in_timestamp_order (boot now uuids oids faults)) as Hboot
    by (split; constructor).
  revert Hboot. generalize (boot now uuids oids faults).
  induction evs as [|ev evs IH]; intros w Hw; simpl; [done|].
  apply IH. by apply handle_keeps_order.
Qed.

(** On such a server the list-messages query answers in ascending timestamp
    order. *)
Lemma serially_list_messages_sorted (evs : list ServerEvent) (now : Z)
    (uuids oids : nat → string) (faults : nat → bool) (cid : string) :
  Sorted by_timestamp
    (filter (in_conversation cid)
       (messages (serially evs (boot now uuids oids faults)))).
Proof.
  apply Sorted_filter_by_timestamp.
  apply StronglySorted_Sorted, serially_in_timestamp_order.
Qed.

Lemma other_participant_pair (u v : string) (c : Conversation.t) :
  v ≠ u →
  Conversation.participants c = [u; v] ∨ Conversation.participants c = [v; u] →
  other_participant u c = Some v.
Proof.
  intros Hne [Hp|Hp]; unfold other_participant; rewrite Hp; simpl.
  - rewrite bool_decide_eq_false_2 by (by intros ?).
    by rewrite bool_decide_eq_true_2.
  - by rewrite bool_decide_eq_true_2.
Qed.

Lemma other_participant_self (u : string) (c : Conversation.t) :
  Conversation.participants c = [u; u] → other_participant u c = None.
Proof.
  intros Hp. unfold other_participant. rewrite Hp. simpl.
  by rewrite bool_decide_eq_false_2 by (by intros ?).
Qed.

(** What the list-conversations query does answer: one entry per
    conversation holding [u], in store order, none for the others, and the
    counterpart whenever the two participants differ. *)
Lemma get_messages_list_entries (req : Request) (w : World) :
  faulty w = false →
  ∃ w' entries,
    run (get_messages_list req) w = (Returned (), w')
    ∧ responses w' = responses w ++ [(rid req, mkResponse 200 (JList entries))]
    ∧ le_conversationId <$> entries
      = Conversation.conversationId
          <$> filter (has_participant (req_param req)) (conversations w)
    ∧ ∀ c v, c ∈ conversations w → v ≠ req_param req →
        Conversation.participants c = [req_param req; v]
        ∨ Conversation.participants c = [v; req_param req] →
        mkListEntry (Conversation.conversationId c) (Some v) ∈ entries.
Proof.
  intros Hok. rewrite get_messages_list_run, Hok. eexists _, _.
  split; [done|]. split; [done|]. split.
  - by rewrite <- list_fmap_compose.
  - intros c v Hc Hne Hp. apply list_elem_of_fmap. exists c. split.
    + unfold list_entry. by rewrite (other_participant_pair _ v).
    + apply list_elem_of_filter. split; [|done].
      unfold has_participant. destruct Hp as [-> | ->]; set_solver.
Qed.

(** The spec's scenario: after alice and bob have their conversation,
    listing alice's conversations gives that conversation with bob. *)
Example alice_lists_bob :
  responses (snd (run (get_messages_list (param_request 7 "alice")) alice_and_bob))
  = responses alice_and_bob
      ++ [(7, mkResponse 200 (JList [mkListEntry "3f2b8c1e-0000" (Some "bob")]))].
Proof. by vm_compute. Qed.

(** C9 fails on a conversation a user has with herself: the record is
    listed, but with no counterpart at all, where the other entry of the
    pair is the user again. *)
Lemma C9_self_conversation_has_no_counterpart :
  conversations after_self_conversation
  = [Conversation.mk "65a1f0000000000000000000" ["alice"; "alice"] "3f2b8c1e-0000"]
  ∧ responses (snd (run (get_messages_list (param_request 2 "alice"))
                      after_self_conversation))
    = responses after_self_conversation
        ++ [(2, mkResponse 200 (JList [mkListEntry "3f2b8c1e-0000" None]))].
Proof. split; by vm_compute. Qed.

(** ** Signaling relay *)

Lemma on_signal_outbox (k : Signal) (socket : string) (data : JsObject) (w : World) :
  outbox (on_signal_result k socket data w) = outbox w ++ relayed k socket data w.
Proof.
  unfold on_signal_result, relayed.
  destruct (data !! target_field k); simpl; [done|]. by rewrite app_nil_r.
Qed.

Lemma on_signal_frame (k : Signal) (socket : string) (data : JsObject) (w : World) :
  let w' := on_signal_result k socket data w in
  responses w' = responses w ∧ rooms w' = rooms w
  ∧ conversations w' = conversations w ∧ messages w' = messages w.
Proof. unfold on_signal_result. by destruct (data !! target_field k). Qed.

Lemma elem_of_relayed (k : Signal) (socket : string) (data : JsObject) (w : World)
    (d : Delivery) :
  d ∈ relayed k socket data w ↔
  ∃ target, data !! target_field k = Some target
            ∧ d_to d ∈ members target w ∧ d_to d ≠ socket
            ∧ d_event d = signal_name k ∧ d_payload d = PData data.
Proof.
  unfold relayed. destruct (data !! target_field k) as [t|].
  - rewrite elem_of_fanout. split.
    + intros ([? Hne]%elem_of_difference & ? & ?). exists t.
      repeat split; try done. intros Heq. apply Hne. by apply elem_of_singleton.
    + intros (t' & [= <-] & ? & ? & ? & ?). split; [|done].
      apply elem_of_difference. split; [done|]. by intros ?%elem_of_singleton.
  - split; [by intros ?%elem_of_nil|by intros (? & ? & _)].
Qed.

Lemma fanout_recipients (to : gset string) (ev : string) (p : Payload) :
  d_to <$> fanout to ev p = elements to.
Proof.
  unfold fanout. rewrite <- list_fmap_compose. apply list_fmap_id.
Qed.

(** C4 (as amended). For each signaling event kind the listener raises no
    error, answers nothing, stores nothing, and delivers the received
    payload unchanged, under the same event name, once to each connection
    that is in the Socket.IO room named by the payload's target-address
    field and is not the sending connection, and to nobody else; when that
    room has no member other than the sender, or the field is missing,
    nothing is delivered. *)
Theorem C4_relay_to_target_room_except_sender
    (k : Signal) (socket : string) (data : JsObject) (w : World) :
  ∃ w' new,
    run (on_signal k socket data) w = (Returned (), w')
    ∧ outbox w' = outbox w ++ new
    ∧ responses w' = responses w
    ∧ conversations w' = conversations w ∧ messages w' = messages w
    ∧ NoDup (d_to <$> new)
    ∧ (∀ d, d ∈ new ↔
         ∃ target, data !! target_field k = Some target
                   ∧ d_to d ∈ members target w ∧ d_to d ≠ socket
                   ∧ d_event d = signal_name k ∧ d_payload d = PData data)
    ∧ ((∀ target sid, data !! target_field k = Some target →
          sid ∈ members target w → sid = socket) → new = []).
Proof.
  exists (on_signal_result k socket data w), (relayed k socket data w).
  destruct (on_signal_frame k socket data w) as (? & ? & ? & ?).
  split; [apply on_signal_run|]. split; [apply on_signal_outbox|].
  do 3 (split; [done|]). split; [|split].
  - unfold relayed. destruct (data !! target_field k).
    + rewrite fanout_recipients. apply NoDup_elements.
    + constructor.
  - apply elem_of_relayed.
  - intros Hnone. destruct (relayed k socket data w) as [|d new] eqn:Hnew; [done|].
    assert (d ∈ relayed k socket data w) as Hd by (rewrite Hnew; left).
    apply elem_of_relayed in Hd as (t & Ht & Hin & Hne & _).
    destruct Hne. by apply (Hnone t).
Qed.

(** C4, as stated, fails in both halves.  A connection addressed by its own
    id is sent nothing when it is itself the sender; and an address that is
    no connection's id but names a room still reaches that room's members. *)
Lemma C4_counterexample :
  (("sock-1" ∈ sockets lone_caller)
   ∧ outbox (snd (run (on_offer "sock-1" offer_to_self) lone_caller)) = [])
  ∧ (("3f2b8c1e-0000" ∉ sockets caller_and_room_member)
     ∧ outbox (snd (run (on_offer "sock-1" offer_to_room) caller_and_room_member))
       = [mkDelivery "sock-2" "offer" (PData offer_to_room)]).
Proof.
  split; split; [compute_done|by vm_compute|compute_done|by vm_compute].
Qed.

(** C10. A relayed signaling event is never delivered to the connection
    that sent it, whatever the target address, the sender's own included. *)
Theorem C10_relay_never_echoes_to_sender
    (k : Signal) (socket : string) (data : JsObject) (w : World) :
  ∃ new,
    outbox (snd (run (on_signal k socket data) w)) = outbox w ++ new
    ∧ Forall (λ d, d_to d ≠ socket) new.
Proof.
  exists (relayed k socket data w). rewrite on_signal_run. simpl.
  split; [apply on_signal_outbox|].
  apply Forall_forall. by intros d (_ & _ & _ & ? & _)%elem_of_relayed.
Qed.

(** ** The theorems at work on alice and bob *)

Example resolve_idempotent_after_other_contact :
  let first := conversation_request 1 "alice" "bob" in
  let again := conversation_request 3 "bob" "alice" in
  let w1 := snd (run (post_conversations first) fresh_server) in
  let w2 := handle (PostConversations (conversation_request 2 "carol" "dave")) w1 in
  ∃ w3,
    run (post_conversations again) w2 = (Returned (), w3)
    ∧ responses w3
      = responses w2 ++ [(rid again, mkResponse 200 (JConversationId "3f2b8c1e-0000"))]
    ∧ conversations w3 = conversations w2
    ∧ ∃ c, c ∈ conversations w1
           ∧ Conversation.conversationId c = "3f2b8c1e-0000"
           ∧ all_of "alice" "bob" c.
Proof.
  intros first again w1 w2.
  apply (resolve_idempotent_when_handled_alone first again
           "alice" "bob" "bob" "alice" "3f2b8c1e-0000" fresh_server w1 w2).
  - discriminate.
  - discriminate.
  - reflexivity.
  - reflexivity.
  - vm_compute. reflexivity.
  - vm_compute. reflexivity.
  - right. split; reflexivity.
  - reflexivity.
  - reflexivity.
  - exists [Conversation.mk "65a1f0000000000000000001" ["carol"; "dave"] "a91d44c7-0001"].
    vm_compute. reflexivity.
  - reflexivity.
Qed.

Lemma C3_witness :
  let w' := snd (run (post_messages hi_from_alice) alice_and_bob) in
  messages w' = messages alice_and_bob ++ [hi_stored]
  ∧ rooms w' = rooms alice_and_bob
  ∧ outbox w' =
      outbox alice_and_bob
        ++ fanout (members (Message.conversationId hi_stored) w') "newMessage"
             (PDocument hi_stored)
  ∧ ∀ sid, sid ∈ members (Message.conversationId hi_stored) w' →
      mkDelivery sid "newMessage" (PDocument hi_stored) ∈ outbox w'.
Proof.
  intros w'.
  assert (messages w' = messages alice_and_bob ++ [hi_stored]) as Hsaved
    by (vm_compute; reflexivity).
  split; [exact Hsaved|].
  apply (C3_new_message_reaches_every_room_member hi_from_alice alice_and_bob w'
           (Returned ()) hi_stored).
  - vm_compute. reflexivity.
  - exact Hsaved.
Defined.

Lemma C5_witness :
  ∃ w' found,
    run (get_messages_conversation (param_request 9 "3f2b8c1e-0000")) alice_and_bob
    = (Returned (), w')
    ∧ responses w' =
        responses alice_and_bob ++ [(9, mkResponse 200 (JMessages found))]
    ∧ found = filter (in_conversation "3f2b8c1e-0000") (messages alice_and_bob)
    ∧ ((∀ m, m ∈ messages alice_and_bob →
          Message.conversationId m ≠ "3f2b8c1e-0000") → found = [])
    ∧ (Sorted by_timestamp (messages alice_and_bob) → Sorted by_timestamp found).
Proof.
  apply (C5_list_messages_in_store_order (param_request 9 "3f2b8c1e-0000")
           alice_and_bob).
  vm_compute. reflexivity.
Defined.

Lemma C7_witness :
  ∃ w',
    run (post_messages hi_from_alice) alice_and_bob_store_failing = (Returned (), w')
    ∧ responses w' =
        responses alice_and_bob_store_failing
          ++ [(2, mkResponse 500 (JMessage "Error saving message"))]
    ∧ outbox w' = outbox alice_and_bob_store_failing
    ∧ messages w' = messages alice_and_bob_store_failing.
Proof.
  apply (C7_save_failure_is_500_without_broadcast hi_from_alice
           "3f2b8c1e-0000" "alice" "bob" "hi" alice_and_bob_store_failing
           (next_db (next_oid alice_and_bob_store_failing)) StorageError).
  - vm_compute. reflexivity.
  - vm_compute. reflexivity.
Defined.

Lemma C8_witness :
  let w' := snd (run (post_messages hi_from_alice) alice_and_bob) in
  responses w' =
    responses alice_and_bob ++ [(2, mkResponse 200 (JDocument hi_stored))]
  ∧ messages w' = messages alice_and_bob ++ [hi_stored].
Proof.
  intros w'. split; [vm_compute; reflexivity|].
  refine (proj1 (C8_stored_message_shape hi_from_alice
                   "3f2b8c1e-0000" "alice" "bob" "hi"
                   alice_and_bob w' (Returned ()) (JDocument hi_stored) _ _ _));
    vm_compute; reflexivity.
Defined.

(** ** Validation *)

Lemma truthy_false (v : option string) : truthy v = false ↔ missing v.
Proof.
  unfold missing. destruct v as [s|]; simpl; [|naive_solver].
  rewrite bool_decide_eq_false. split.
  - intros Hs. right. f_equal. by destruct (decide (s = "")).
  - intros [?|[= ->]]; [done|]. by intros ?.
Qed.

(** X1. A create-or-get request whose sender or receiver is missing or
    empty is answered 400 at once: no store operation is issued (so the
    answer is 400 even with the store down) and nothing is created. *)
Theorem X1_conversation_request_incomplete (req : Request) (w : World) :
  missing (req_body req !! "senderUsername")
  ∨ missing (req_body req !! "receiverUsername") →
  ∃ w',
    run (post_conversations req) w = (Returned (), w')
    ∧ responses w' =
        responses w
          ++ [(rid req, mkResponse 400 (JMessage "Sender and receiver are required"))]
    ∧ conversations w' = conversations w
    ∧ db_count w' = db_count w
    ∧ uuid_count w' = uuid_count w.
Proof.
  intros Hmiss. rewrite post_conversations_invalid; [by eexists|].
  apply andb_false_iff. by rewrite !truthy_false.
Qed.

(** X2. A send-message request with any of conversationId, senderUsername,
    receiverUsername or message missing or empty is answered 400 at once:
    nothing is stored, nothing is broadcast, no store operation is issued. *)
Theorem X2_message_request_incomplete (req : Request) (w : World) :
  missing (req_body req !! "conversationId")
  ∨ missing (req_body req !! "senderUsername")
  ∨ missing (req_body req !! "receiverUsername")
  ∨ missing (req_body req !! "message") →
  ∃ w',
    run (post_messages req) w = (Returned (), w')
    ∧ responses w' =
        responses w
          ++ [(rid req,
               mkResponse 400
                 (JMessage "Conversation ID, sender, receiver, and message are required"))]
    ∧ messages w' = messages w
    ∧ outbox w' = outbox w
    ∧ db_count w' = db_count w.
Proof.
  intros Hmiss. rewrite post_messages_invalid; [by eexists|].
  unfold message_fields. rewrite <- !truthy_false in Hmiss.
  destruct Hmiss as [ -> | [ -> | [ -> | -> ] ] ]; simpl; by rewrite ?andb_false_r.
Qed.

(** X11. Every send-message request is answered exactly once, with 200, 400
    or 500, and its handler never lets an exception escape. *)
Theorem X11_send_message_always_answers (req : Request) (w : World) :
  ∃ w' st b,
    run (post_messages req) w = (Returned (), w')
    ∧ responses w' = responses w ++ [(rid req, mkResponse st b)]
    ∧ (st = 200 ∨ st = 400 ∨ st = 500).
Proof.
  destruct (message_fields req) as [[[[cid s] r] text]|] eqn:Hreq.
  - rewrite (post_messages_run _ _ _ _ _ _ Hreq). unfold post_messages_result.
    destruct (_ || _); eexists _, _, _; (split; [done|]); (split; [done|]); auto.
  - rewrite (post_messages_invalid _ _ Hreq). eexists _, _, _.
    split; [done|]. split; [done|]. auto.
Qed.

(** ** Creating a conversation *)

Lemma filter_nil_head {X} (P : X → Prop) `{!∀ x, Decision (P x)} (l : list X) :
  (∀ x, x ∈ l → ¬ P x) → head (filter P l) = None.
Proof. intros Hnone. by rewrite filter_none. Qed.

(** X3. First contact: when no stored conversation holds both participants
    and the store accepts the save, the create-or-get handler appends one
    record whose participants are the sender then the receiver and whose
    conversationId is the identifier [uuidv4()] returned, and answers 200
    with that identifier. *)
Theorem X3_first_contact_creates (req : Request) (a b : string) (w : World) :
  req_body req !! "senderUsername" = Some a →
  req_body req !! "receiverUsername" = Some b →
  a ≠ "" → b ≠ "" →
  (∀ c, c ∈ conversations w → ¬ all_of a b c) →
  faulty w = false → faulty (next_db w) = false →
  uuid_source w (uuid_count w) ∉ Conversation.conversationId <$> conversations w →
  oid_source w (oid_count w) ∉ Conversation._id <$> conversations w →
  ∃ w',
    run (post_conversations req) w = (Returned (), w')
    ∧ responses w' =
        responses w
          ++ [(rid req, mkResponse 200 (JConversationId (uuid_source w (uuid_count w))))]
    ∧ conversations w' =
        conversations w
          ++ [Conversation.mk (oid_source w (oid_count w)) [a; b]
                (uuid_source w (uuid_count w))].
Proof.
  intros Ha Hb Hna Hnb Hnone Hok Hok' Hid Hoid.
  rewrite (post_conversations_run req a b) by done.
  unfold post_conversations_result. rewrite Hok, filter_nil_head by done.
  change (faulty (next_oid (next_uuid (next_db w)))) with (faulty (next_db w)).
  rewrite Hok'. unfold conversation_conflict. simpl.
  rewrite !bool_decide_eq_false_2 by done. by eexists.
Qed.

(** X4. When the save of a new conversation is rejected, by a storage
    failure or because the [_id] or the unique [conversationId] is already
    taken, the handler answers 500 [Error creating conversation] and the
    collection is left as it was. *)
Theorem X4_creation_rejected (req : Request) (a b : string) (w : World) :
  req_body req !! "senderUsername" = Some a →
  req_body req !! "receiverUsername" = Some b →
  a ≠ "" → b ≠ "" →
  (∀ c, c ∈ conversations w → ¬ all_of a b c) →
  faulty w = false →
  faulty (next_db w) = true
  ∨ uuid_source w (uuid_count w) ∈ Conversation.conversationId <$> conversations w
  ∨ oid_source w (oid_count w) ∈ Conversation._id <$> conversations w →
  ∃ w',
    run (post_conversations req) w = (Returned (), w')
    ∧ responses w' =
        responses w
          ++ [(rid req, mkResponse 500 (JMessage "Error creating conversation"))]
    ∧ conversations w' = conversations w.
Proof.
  intros Ha Hb Hna Hnb Hnone Hok Hrej.
  rewrite (post_conversations_run req a b) by done.
  unfold post_conversations_result. rewrite Hok, filter_nil_head by done.
  change (faulty (next_oid (next_uuid (next_db w)))) with (faulty (next_db w)).
  assert (faulty (next_db w)
          || conversation_conflict
               (Conversation.mk (oid_source w (oid_count w)) [a; b]
                  (uuid_source w (uuid_count w)))
               (next_oid (next_uuid (next_db w))) = true) as ->; [|by eexists].
  destruct Hrej as [-> | [Hid | Hoid]]; [done| |];
    apply orb_true_iff; right; unfold conversation_conflict; simpl.
  - rewrite (bool_decide_eq_true_2 _ Hid). by rewrite orb_true_r.
  - by rewrite (bool_decide_eq_true_2 _ Hoid).
Qed.

(** X5. A create-or-get request naming the same user as sender and receiver
    matches any conversation that user is in: it answers 200 with the
    identifier of the first stored conversation holding the user, whoever
    the other participant is, and creates nothing. *)
Theorem X5_self_request_returns_any_conversation
    (req : Request) (a : string) (c : Conversation.t) (w : World) :
  req_body req !! "senderUsername" = Some a →
  req_body req !! "receiverUsername" = Some a →
  a ≠ "" →
  faulty w = false →
  head (filter (has_participant a) (conversations w)) = Some c →
  ∃ w',
    run (post_conversations req) w = (Returned (), w')
    ∧ responses w' =
        responses w
          ++ [(rid req, mkResponse 200 (JConversationId (Conversation.conversationId c)))]
    ∧ conversations w' = conversations w.
Proof.
  intros Ha Hb Hna Hok Hhd.
  rewrite (post_conversations_run req a a) by done.
  unfold post_conversations_result. rewrite Hok.
  assert (filter (all_of a a) (conversations w)
          = filter (has_participant a) (conversations w)) as ->.
  { apply list_filter_iff. intros c'. unfold all_of, has_participant. tauto. }
  rewrite Hhd. by eexists.
Qed.

(** ** The two queries *)

(** X6. The list-messages query always answers exactly once and never lets
    an exception escape: 500 [Error fetching messages] exactly when the
    store rejects the read, 200 otherwise; and it only reads: collections,
    rooms and delivered events are as before. *)
Theorem X6_list_messages_answers_and_only_reads (req : Request) (w : World) :
  ∃ w' st b,
    run (get_messages_conversation req) w = (Returned (), w')
    ∧ responses w' = responses w ++ [(rid req, mkResponse st b)]
    ∧ (faulty w = true → st = 500 ∧ b = JMessage "Error fetching messages")
    ∧ (faulty w = false → st = 200)
    ∧ conversations w' = conversations w ∧ messages w' = messages w
    ∧ rooms w' = rooms w ∧ outbox w' = outbox w.
Proof.
  rewrite get_messages_conversation_run.
  destruct (faulty w); eexists _, _, _; (split; [done|]); (split; [done|]); done.
Qed.

(** X7. The list-conversations query always answers exactly once and never
    lets an exception escape: 500 with message [Error fetching messages] and
    the error's text exactly when the store rejects the read, 200 otherwise;
    and it only reads. *)
Theorem X7_list_conversations_answers_and_only_reads (req : Request) (w : World) :
  ∃ w' st b,
    run (get_messages_list req) w = (Returned (), w')
    ∧ responses w' = responses w ++ [(rid req, mkResponse st b)]
    ∧ (faulty w = true →
       st = 500 ∧ ∃ detail, b = JMessageError "Error fetching messages" detail)
    ∧ (faulty w = false → st = 200)
    ∧ conversations w' = conversations w ∧ messages w' = messages w
    ∧ rooms w' = rooms w ∧ outbox w' = outbox w.
Proof.
  rewrite get_messages_list_run.
  destruct (faulty w); eexists _, _, _; (split; [done|]); (split; [done|]);
    (split; [|done]); [|done].
  intros _. split; [done|]. by eexists.
Qed.

(** X8. When the store answers, the list-conversations query returns one
    entry per stored conversation holding the user, in store order and for
    no other conversation; each entry carries that conversation's
    identifier, and, for a conversation of the user and one different user,
    that other user as counterpart. *)
Theorem X8_list_conversations_entries (req : Request) (w : World) :
  faulty w = false →
  ∃ w' entries,
    run (get_messages_list req) w = (Returned (), w')
    ∧ responses w' = responses w ++ [(rid req, mkResponse 200 (JList entries))]
    ∧ Forall2
        (λ entry c,
           le_conversationId entry = Conversation.conversationId c
           ∧ ∀ v, v ≠ req_param req →
               Conversation.participants c = [req_param req; v]
               ∨ Conversation.participants c = [v; req_param req] →
               le_receiverUsername entry = Some v)
        entries
        (filter (has_participant (req_param req)) (conversations w)).
Proof.
  intros Hok. rewrite get_messages_list_run, Hok. eexists _, _.
  split; [done|]. split; [done|].
  apply Forall2_fmap_l, Forall_Forall2_diag, Forall_forall.
  intros c _. split; [done|]. intros v Hne Hp. simpl.
  by apply other_participant_pair.
Qed.

Lemma pair_of_two (l : list string) (a b : string) :
  length l = 2 → a ∈ l → b ∈ l → a ≠ b → l = [a; b] ∨ l = [b; a].
Proof.
  destruct l as [|x [|y [|z l]]]; try done. intros _ Ha Hb Hne.
  apply elem_of_cons in Ha as [Ha|Ha%list_elem_of_singleton],
                        Hb as [Hb|Hb%list_elem_of_singleton]; subst.
  - done.
  - by left.
  - by right.
  - done.
Qed.

(** X9. Create, then list: in a store whose conversations all have two
    participants, once a create-or-get call for two different users has
    answered with identifier [x], the list-conversations query for either of
    them, on any later store the read of which succeeds, contains the entry
    of [x] with the other user as counterpart. *)
Theorem X9_created_conversation_is_listed
    (req lreq : Request) (a b u v x : string) (w w1 w2 : World) :
  a ≠ "" → b ≠ "" → a ≠ b →
  req_body req !! "senderUsername" = Some a →
  req_body req !! "receiverUsername" = Some b →
  Forall (λ c, length (Conversation.participants c) = 2) (conversations w) →
  run (post_conversations req) w = (Returned (), w1) →
  responses w1 = responses w ++ [(rid req, mkResponse 200 (JConversationId x))] →
  conversations w1 `prefix_of` conversations w2 →
  faulty w2 = false →
  (u = a ∧ v = b) ∨ (u = b ∧ v = a) →
  req_param lreq = u →
  ∃ w3 entries,
    run (get_messages_list lreq) w2 = (Returned (), w3)
    ∧ responses w3 = responses w2 ++ [(rid lreq, mkResponse 200 (JList entries))]
    ∧ mkListEntry x (Some v) ∈ entries.
Proof.
  intros Hna Hnb Hab Ha Hb Hpairs Hrun Hres [more Hconv] Hok Huv Hu.
  assert (Forall (λ c, length (Conversation.participants c) = 2) (conversations w1))
    as Hpairs1.
  { destruct (post_conversations_effect req w)
      as (_ & _ & [Hc|(a0 & b0 & oid & cid & _ & Hc)]);
      rewrite Hrun in Hc; simpl in Hc; rewrite Hc; [done|].
    apply Forall_app. split; [done|]. by constructor. }
  rewrite (post_conversations_run req a b) in Hrun by done.
  destruct (post_conversations_result_found _ _ _ _ _ _ Hrun Hres) as (c & Hhd & Hx).
  apply head_Some_elem_of, list_elem_of_filter in Hhd as [[Hca Hcb] Hc].
  assert (Conversation.participants c = [a; b] ∨ Conversation.participants c = [b; a])
    as Hp by (apply pair_of_two; [by eapply Forall_forall in Hpairs1|done..]).
  destruct (get_messages_list_entries lreq w2 Hok) as (w3 & entries & Hl & Hr & _ & Hin).
  exists w3, entries. split; [done|]. split; [done|]. rewrite <- Hx.
  apply Hin.
  - rewrite Hconv. apply elem_of_app. by left.
  - rewrite Hu. destruct Huv as [[-> ->]|[-> ->]]; done.
  - rewrite Hu. destruct Huv as [[-> ->]|[-> ->]]; tauto.
Qed.

(** X10. Send, then list: once a send-message call has answered 200 with
    the stored document [m], the list-messages query for [m]'s conversation,
    on any later store the read of which succeeds, contains [m]; asked before
    any other message is stored, it has [m] as its last element. *)
Theorem X10_sent_message_is_listed
    (req lreq : Request) (m : Message.t) (o : Outcome unit) (w w1 w2 : World) :
  run (post_messages req) w = (o, w1) →
  responses w1 = responses w ++ [(rid req, mkResponse 200 (JDocument m))] →
  messages w1 `prefix_of` messages w2 →
  faulty w2 = false →
  req_param lreq = Message.conversationId m →
  ∃ w3 found,
    run (get_messages_conversation lreq) w2 = (Returned (), w3)
    ∧ responses w3 = responses w2 ++ [(rid lreq, mkResponse 200 (JMessages found))]
    ∧ m ∈ found
    ∧ (messages w2 = messages w1 → last found = Some m).
Proof.
  intros Hrun Hres [more Hmsgs] Hok Hparam.
  assert (messages w1 = messages w ++ [m]) as Hsaved.
  { destruct (message_fields req) as [[[[cid s] r] text]|] eqn:Hreq.
    - rewrite (post_messages_run _ _ _ _ _ _ Hreq) in Hrun.
      unfold post_messages_result in Hrun. destruct (_ || _).
      + injection Hrun as <- <-. same_answer Hres.
      + injection Hrun as <- <-. same_answer Hres. done.
    - rewrite (post_messages_invalid _ _ Hreq) in Hrun.
      injection Hrun as <- <-. same_answer Hres. }
  rewrite get_messages_conversation_run, Hok. eexists _, _.
  split; [done|]. split; [done|]. rewrite Hparam. split.
  - apply list_elem_of_filter. split; [done|].
    rewrite Hmsgs, Hsaved. set_solver.
  - intros ->. rewrite Hsaved, filter_app.
    rewrite (filter_cons_True _ m []) by done. apply last_snoc.
Qed.

(** ** Rooms *)

Lemma post_messages_stored
    (req : Request) (w w' : World) (o : Outcome unit) (m : Message.t) :
  run (post_messages req) w = (o, w') →
  messages w' = messages w ++ [m] →
  outbox w' =
    outbox w ++ fanout (members (Message.conversationId m) w) "newMessage" (PDocument m)
  ∧ rooms w' = rooms w.
Proof.
  intros Hrun Hsaved.
  destruct (message_fields req) as [[[[cid s] r] text]|] eqn:Hreq.
  - rewrite (post_messages_run _ _ _ _ _ _ Hreq) in Hrun.
    unfold post_messages_result in Hrun. destruct (_ || _).
    + injection Hrun as <- <-. simpl in Hsaved. by apply snoc_neq in Hsaved.
    + injection Hrun as <- <-. simpl in Hsaved.
      by apply app_inv_head in Hsaved as [= <-].
  - rewrite (post_messages_invalid _ _ Hreq) in Hrun.
    injection Hrun as <- <-. simpl in Hsaved. by apply snoc_neq in Hsaved.
Qed.

Lemma on_joinConversation_run (socket cid : string) (w : World) :
  run (on_joinConversation socket cid) w =
  (Returned (), set_rooms (<[cid := {[socket]} ∪ members cid w]> (rooms w)) w).
Proof. done. Qed.

Lemma members_after_join (socket cid room : string) (w : World) :
  members room (snd (run (on_joinConversation socket cid) w)) =
  if decide (room = cid) then {[socket]} ∪ members cid w else members room w.
Proof.
  rewrite on_joinConversation_run. unfold members at 1. simpl.
  destruct (decide (room = cid)) as [->|Hne].
  - by rewrite lookup_insert_eq.
  - by rewrite lookup_insert_ne.
Qed.

(** X12. Join, then broadcast: after a connection has joined the room of a
    conversation, a message persisted for that conversation is delivered to
    it as [newMessage]; and that send delivers to nobody but the joiner and
    the connections that were in the room before. *)
Theorem X12_joined_socket_receives_new_messages
    (socket : string) (req : Request) (m : Message.t) (o : Outcome unit)
    (w w2 : World) :
  let w1 := snd (run (on_joinConversation socket (Message.conversationId m)) w) in
  run (post_messages req) w1 = (o, w2) →
  messages w2 = messages w1 ++ [m] →
  ∃ new,
    outbox w2 = outbox w1 ++ new
    ∧ mkDelivery socket "newMessage" (PDocument m) ∈ new
    ∧ ∀ d, d ∈ new →
        d_to d = socket ∨ d_to d ∈ members (Message.conversationId m) w.
Proof.
  intros w1 Hrun Hsaved.
  destruct (post_messages_stored _ _ _ _ _ Hrun Hsaved) as [Hout _].
  eexists. split; [done|]. subst w1. rewrite members_after_join, decide_True by done.
  split.
  - apply elem_of_fanout. split; [|done]. apply elem_of_union. left.
    by apply elem_of_singleton.
  - intros d [[Hd%elem_of_singleton|Hd]%elem_of_union _]%elem_of_fanout; auto.
Qed.

(** X13. Joining puts the connection into the named room and changes no
    other room; it needs no stored conversation of that name, sends
    nothing, stores nothing, and joining again changes nothing. *)
Theorem X13_join_changes_one_room
    (socket conversationId : string) (w : World) :
  let w' := snd (run (on_joinConversation socket conversationId) w) in
  fst (run (on_joinConversation socket conversationId) w) = Returned ()
  ∧ members conversationId w' = {[socket]} ∪ members conversationId w
  ∧ (∀ room, room ≠ conversationId → members room w' = members room w)
  ∧ outbox w' = outbox w ∧ responses w' = responses w
  ∧ conversations w' = conversations w ∧ messages w' = messages w
  ∧ rooms (snd (run (on_joinConversation socket conversationId) w')) = rooms w'.
Proof.
  intros w'.
  assert (∀ v, rooms (snd (run (on_joinConversation socket conversationId) v))
               = <[conversationId := {[socket]} ∪ members conversationId v]> (rooms v))
    as Hrooms by done.
  assert (members conversationId w' = {[socket]} ∪ members conversationId w) as Hm
    by (subst w'; by rewrite members_after_join, decide_True).
  split; [done|]. split; [done|]. split.
  - intros room Hne. subst w'. by rewrite members_after_join, decide_False.
  - do 4 (split; [done|]). rewrite Hrooms, Hm. subst w'. rewrite Hrooms.
    rewrite insert_insert_eq. f_equal.
    by rewrite (assoc_L (∪)), (idemp_L (∪)).
Qed.

(** X14. A room joined with [joinConversation] is also a signaling
    address: once a connection has joined the room named [target], an
    offer, answer or ICE candidate that another connection addresses to
    [target] is delivered to it, payload unchanged. *)
Theorem X14_joined_room_receives_signaling
    (k : Signal) (listener caller target : string) (data : JsObject) (w : World) :
  listener ≠ caller →
  data !! target_field k = Some target →
  let w1 := snd (run (on_joinConversation listener target) w) in
  mkDelivery listener (signal_name k) (PData data)
    ∈ outbox (snd (run (on_signal k caller data) w1)).
Proof.
  intros Hne Ht w1. rewrite on_signal_run. simpl.
  rewrite on_signal_outbox. apply elem_of_app. right.
  apply elem_of_relayed. exists target. split; [done|]. simpl.
  split; [|done]. subst w1. rewrite members_after_join, decide_True by done.
  apply elem_of_union. left. by apply elem_of_singleton.
Qed.

(** X15. The send-message handler never looks at the Conversation
    collection: whatever conversations the store holds, none included, a
    request gets the same answer, stores the same message and broadcasts
    the same events. *)
Theorem X15_send_ignores_conversations
    (req : Request) (l : list Conversation.t) (w : World) :
  let r1 := run (post_messages req) w in
  let r2 := run (post_messages req) (set_conversations l w) in
  fst r2 = fst r1
  ∧ responses (snd r2) = responses (snd r1)
  ∧ messages (snd r2) = messages (snd r1)
  ∧ outbox (snd r2) = outbox (snd r1)
  ∧ conversations (snd r2) = l.
Proof.
  intros r1 r2. subst r1 r2.
  destruct (message_fields req) as [[[[cid s] r] text]|] eqn:Hreq.
  - rewrite !(post_messages_run _ _ _ _ _ _ Hreq). unfold post_messages_result.
    change (faulty (next_oid (set_conversations l w))) with (faulty (next_oid w)).
    change (message_conflict (new_message cid s r text (set_conversations l w))
              (next_oid (set_conversations l w)))
      with (message_conflict (new_message cid s r text w) (next_oid w)).
    by destruct (_ || _).
  - by rewrite !(post_messages_invalid _ _ Hreq).
Qed.

(** ** One request at a time *)

(** X16. When the server handles one event at a time from boot on, any two
    stored conversations with the same participants, in either order, are
    one and the same record. *)
Theorem X16_serial_one_record_per_pair
    (evs : list ServerEvent) (now : Z) (uuids oids : nat → string)
    (faults : nat → bool) (c1 c2 : Conversation.t) :
  let w := serially evs (boot now uuids oids faults) in
  c1 ∈ conversations w → c2 ∈ conversations w →
  Conversation.participants c1 ≡ₚ Conversation.participants c2 →
  c1 = c2.
Proof.
  intros w [i Hi]%list_elem_of_lookup [j Hj]%list_elem_of_lookup Hperm.
  assert (i = j) as -> by (by eapply (serially_one_per_pair evs now uuids oids faults)).
  congruence.
Qed.

(** X17. When the server handles one event at a time from boot on, with a
    clock that does not go back, the list-messages query, if the store
    answers, returns the conversation's messages in ascending timestamp
    order. *)
Theorem X17_serial_list_messages_ascending
    (evs : list ServerEvent) (now : Z) (uuids oids : nat → string)
    (faults : nat → bool) (req : Request) :
  let w := serially evs (boot now uuids oids faults) in
  faulty w = false →
  ∃ w' found,
    run (get_messages_conversation req) w = (Returned (), w')
    ∧ responses w' = responses w ++ [(rid req, mkResponse 200 (JMessages found))]
    ∧ Sorted by_timestamp found.
Proof.
  intros w Hok. rewrite get_messages_conversation_run, Hok. eexists _, _.
  split; [done|]. split; [done|]. apply serially_list_messages_sorted.
Qed.

(** X23. Room membership changes by [joinConversation] alone: none of the
    four HTTP handlers and none of the three signaling listeners adds a
    connection to a room or removes one. *)
Theorem X23_only_join_changes_rooms (i : Incoming) (w : World) :
  (∀ socket cid, i ≠ EmitJoinConversation socket cid) →
  rooms (snd (run (listener i) w)) = rooms w
  ∧ sockets (snd (run (listener i) w)) = sockets w.
Proof.
  intros Hi. destruct i as [req|req|req|req|socket cid|k socket data]; cbn [listener].
  - destruct (truthy (req_body req !! "senderUsername")) eqn:Hs;
      [destruct (truthy (req_body req !! "receiverUsername")) eqn:Hr|].
    + apply truthy_inv in Hs as (a & Ha & Hna), Hr as (b & Hb & Hnb).
      rewrite (post_conversations_run req a b) by done.
      unfold post_conversations_result. destruct (faulty w); [done|].
      destruct (head _); [done|]. by destruct (_ || _).
    + by rewrite post_conversations_invalid by (by rewrite Hs, Hr).
    + by rewrite post_conversations_invalid by (by rewrite Hs).
  - rewrite get_messages_conversation_run. by destruct (faulty w).
  - rewrite get_messages_list_run. by destruct (faulty w).
  - destruct (message_fields req) as [[[[cid s] r] text]|] eqn:Hreq.
    + rewrite (post_messages_run _ _ _ _ _ _ Hreq). unfold post_messages_result.
      by destruct (_ || _).
    + by rewrite (post_messages_invalid _ _ Hreq).
  - by destruct (Hi socket cid).
  - rewrite on_signal_run. unfold on_signal_result. simpl.
    by destruct (data !! target_field k).
Qed.

(** ** Any number of requests in flight *)

(** Where each listener stops first. *)
Lemma settle_post_conversations (req : Request) (w : World) :
  settle (post_conversations req) w =
  if truthy (req_body req !! "senderUsername")
     && truthy (req_body req !! "receiverUsername")
  then (post_conversations req, w)
  else (Ret (), answered req 400 (JMessage "Sender and receiver are required") w).
Proof.
  unfold post_conversations.
  destruct (truthy (req_body req !! "senderUsername")),
           (truthy (req_body req !! "receiverUsername")); done.
Qed.

Lemma settle_post_messages (req : Request) (w : World) :
  settle (post_messages req) w =
  match message_fields req with
  | Some (cid, s, r, text) =>
      (post_messages_save req (new_message cid s r text w), next_oid w)
  | None =>
      (Ret (),
       answered req 400
         (JMessage "Conversation ID, sender, receiver, and message are required") w)
  end.
Proof.
  unfold post_messages, message_fields.
  destruct (truthy (req_body req !! "conversationId")),
           (truthy (req_body req !! "senderUsername")),
           (truthy (req_body req !! "receiverUsername")),
           (truthy (req_body req !! "message")); done.
Qed.

(** What each suspended listener does when the store answers. *)
Lemma resume_post_conversations (req : Request) (a b : string) (w : World) :
  req_body req !! "senderUsername" = Some a →
  req_body req !! "receiverUsername" = Some b →
  a ≠ "" → b ≠ "" →
  resume (post_conversations req) w =
  if faulty w then (Throw StorageError, next_db w)
  else
    match head (filter (all_of a b) (conversations w)) with
    | Some c =>
        (Ret (),
         answered req 200 (JConversationId (Conversation.conversationId c))
           (next_db w))
    | None =>
        (post_conversations_save req
           (Conversation.mk (oid_source w (oid_count w)) [a; b]
              (uuid_source w (uuid_count w))),
         next_oid (next_uuid (next_db w)))
    end.
Proof.
  intros Ha Hb Hna Hnb. unfold post_conversations.
  rewrite Ha, Hb, !truthy_Some by done. simpl. unfold exec. simpl.
  destruct (faulty w); [done|]. simpl.
  by destruct (head (filter (all_of a b) (conversations w))).
Qed.

Lemma resume_post_conversations_save (req : Request) (c : Conversation.t) (w : World) :
  resume (post_conversations_save req c) w =
  if faulty w || conversation_conflict c w then
    (Ret (), answered req 500 (JMessage "Error creating conversation") (next_db w))
  else
    (Ret (),
     answered req 200 (JConversationId (Conversation.conversationId c))
       (set_conversations (conversations w ++ [c]) (next_db w))).
Proof.
  simpl. unfold exec. simpl. destruct (faulty w); [done|]. simpl.
  change (conversation_conflict c (next_db w)) with (conversation_conflict c w).
  by destruct (conversation_conflict c w).
Qed.

Lemma resume_post_messages_save (req : Request) (m : Message.t) (w : World) :
  resume (post_messages_save req m) w =
  if faulty w || message_conflict m w then
    (Ret (), answered req 500 (JMessage "Error saving message") (next_db w))
  else
    (Ret (),
     answered req 200 (JDocument m)
       (set_outbox
          (outbox w ++ fanout (members (Message.conversationId m) w) "newMessage"
                         (PDocument m))
          (set_messages (messages w ++ [m]) (next_db w)))).
Proof.
  simpl. unfold exec. simpl. destruct (faulty w); [done|]. simpl.
  change (message_conflict m (next_db w)) with (message_conflict m w).
  by destruct (message_conflict m w).
Qed.

Lemma resume_get_messages_conversation (req : Request) (w : World) :
  resume (get_messages_conversation req) w =
  (Ret (), snd (run (get_messages_conversation req) w)).
Proof.
  rewrite get_messages_conversation_run. simpl. unfold exec. simpl.
  by destruct (faulty w).
Qed.

Lemma resume_get_messages_list (req : Request) (w : World) :
  resume (get_messages_list req) w =
  (Ret (), snd (run (get_messages_list req) w)).
Proof.
  rewrite get_messages_list_run. simpl. unfold exec. simpl.
  by destruct (faulty w).
Qed.

(** The store stays sound. *)
Lemma sound_store_frame (w w' : World) :
  conversations w' = conversations w → messages w' = messages w →
  outbox w' = outbox w →
  sound_store w → sound_store w'.
Proof.
  unfold sound_store, broadcasts_are_stored. by intros -> -> ->.
Qed.

Lemma sound_store_relayed (k : Signal) (socket : string) (data : JsObject) (w : World) :
  sound_store w → sound_store (on_signal_result k socket data w).
Proof.
  intros (Hc & Hid & Hm & Hb).
  destruct (on_signal_frame k socket data w) as (_ & _ & Hc' & Hm').
  unfold sound_store, broadcasts_are_stored. rewrite Hc', Hm', on_signal_outbox.
  do 3 (split; [done|]). intros d m [Hd|Hd]%elem_of_app Hp; [by apply Hb|].
  apply elem_of_relayed in Hd as (_ & _ & _ & _ & _ & Hdata). congruence.
Qed.

Lemma sound_store_message_saved (m : Message.t) (w w' : World) :
  complete_message m →
  conversations w' = conversations w → messages w' = messages w ++ [m] →
  outbox w' =
    outbox w ++ fanout (members (Message.conversationId m) w) "newMessage" (PDocument m) →
  sound_store w → sound_store w'.
Proof.
  intros Hm Hc' Hm' Ho' (Hc & Hid & Hms & Hb).
  unfold sound_store, broadcasts_are_stored. rewrite Hc', Hm', Ho'.
  do 2 (split; [done|]). split.
  - apply Forall_app. split; [done|]. by constructor.
  - intros d m' [Hd|Hd]%elem_of_app Hp.
    + destruct (Hb d m' Hd Hp) as [Hin Hev]. split; [|done].
      apply elem_of_app. by left.
    + apply elem_of_fanout in Hd as (_ & Hev & Hpay). split; [|done].
      rewrite Hpay in Hp. injection Hp as <-. apply elem_of_app. right. by left.
Qed.

Lemma sound_store_conversation_saved (c : Conversation.t) (w w' : World) :
  two_participants c → conversation_conflict c w = false →
  conversations w' = conversations w ++ [c] → messages w' = messages w →
  outbox w' = outbox w →
  sound_store w → sound_store w'.
Proof.
  intros Hc Hfree Hc' Hm' Ho' (Hcs & Hid & Hms & Hb).
  unfold sound_store, broadcasts_are_stored. rewrite Hc', Hm', Ho'.
  split; [|split; [|done]].
  - apply Forall_app. split; [done|]. by constructor.
  - rewrite fmap_app. apply NoDup_app. split; [done|]. split.
    + intros x Hx ->%list_elem_of_singleton.
      apply orb_false_iff in Hfree as [_ Hfree%bool_decide_eq_false]. done.
    + apply NoDup_singleton.
Qed.

Lemma tally_insert {X} (f : X → bool) (l : list X) (i : nat) (x y : X) :
  l !! i = Some x →
  tally f (<[i := y]> l) + tally f [x] = tally f l + tally f [y].
Proof.
  unfold tally. revert i. induction l as [|z l IH]; intros [|i] Hi; simplify_eq/=.
  - lia.
  - specialize (IH i Hi). lia.
Qed.

Lemma tally_singleton {X} (f : X → bool) (x : X) : tally f [x] = Nat.b2n (f x).
Proof. unfold tally. simpl. lia. Qed.

Lemma tally_snoc {X} (f : X → bool) (l : list X) (x : X) :
  tally f (l ++ [x]) = tally f l + tally f [x].
Proof. unfold tally. by rewrite sum_list_with_app. Qed.

Lemma awaiting_post_conversations (req : Request) :
  truthy (req_body req !! "senderUsername") = true →
  truthy (req_body req !! "receiverUsername") = true →
  awaiting (post_conversations req) = true ∧ escaped (post_conversations req) = false.
Proof. intros Hs Hr. unfold post_conversations. by rewrite Hs, Hr. Qed.

(** Closing the books after one turn. *)
Ltac account := rewrite ?tally_singleton; cbn; rewrite ?length_app; simpl; lia.

(** The store answers one suspended listener. *)
Lemma resume_in_flight (p : Prog unit) (w : World) :
  in_flight p → sound_store w →
  in_flight (resume p w).1 ∧ sound_store (resume p w).2
  ∧ length (responses (resume p w).2)
    + tally awaiting [(resume p w).1] + tally escaped [(resume p w).1]
    = length (responses w) + tally awaiting [p] + tally escaped [p].
Proof.
  intros Hp Hw. destruct Hp as [|e|req Hs Hr|req c Hc|req|req|req m Hm].
  - simpl. split; [constructor|by split].
  - simpl. split; [constructor|by split].
  - destruct (awaiting_post_conversations req Hs Hr) as [Haw Hes].
    assert (tally awaiting [post_conversations req] = 1) as ->
      by (by rewrite tally_singleton, Haw).
    assert (tally escaped [post_conversations req] = 0) as ->
      by (by rewrite tally_singleton, Hes).
    apply truthy_inv in Hs as (a & Ha & Hna), Hr as (b & Hb & Hnb).
    rewrite (resume_post_conversations req a b) by done.
    destruct (faulty w).
    { split; [constructor|]. split; [by eapply sound_store_frame|account]. }
    destruct (head (filter (all_of a b) (conversations w))).
    { split; [constructor|]. split; [by eapply sound_store_frame|account]. }
    split; [|split; [by eapply sound_store_frame|account]].
    constructor. by exists a, b.
  - rewrite resume_post_conversations_save.
    destruct (faulty w || conversation_conflict c w) eqn:Hrej.
    + split; [constructor|]. split; [by eapply sound_store_frame|account].
    + apply orb_false_iff in Hrej as [_ Hfree].
      split; [constructor|].
      split; [by apply (sound_store_conversation_saved c w)|account].
  - rewrite resume_get_messages_conversation, get_messages_conversation_run.
    split; [constructor|].
    destruct (faulty w); (split; [eapply sound_store_frame; [..|exact Hw]; done|account]).
  - rewrite resume_get_messages_list, get_messages_list_run.
    split; [constructor|].
    destruct (faulty w); (split; [by eapply sound_store_frame|account]).
  - rewrite resume_post_messages_save.
    destruct (faulty w || message_conflict m w).
    + split; [constructor|]. split; [by eapply sound_store_frame|account].
    + split; [constructor|]. split; [by apply (sound_store_message_saved m w)|account].
Qed.

Lemma settle_on_signal (k : Signal) (socket : string) (data : JsObject) (w : World) :
  settle (on_signal k socket data) w = (Ret (), on_signal_result k socket data w).
Proof.
  unfold on_signal_result.
  destruct k; simpl; unfold exec; simpl; by destruct (data !! _).
Qed.

(** Something arrives and its listener runs to its first [await]. *)
Lemma settle_listener (i : Incoming) (w : World) :
  sound_store w →
  in_flight (settle (listener i) w).1 ∧ sound_store (settle (listener i) w).2
  ∧ length (responses (settle (listener i) w).2)
    + tally awaiting [(settle (listener i) w).1]
    + tally escaped [(settle (listener i) w).1]
    = length (responses w) + tally is_http [i].
Proof.
  intros Hw. destruct i as [req|req|req|req|socket cid|k socket data]; cbn [listener].
  - rewrite settle_post_conversations.
    destruct (truthy (req_body req !! "senderUsername")) eqn:Hs;
      [destruct (truthy (req_body req !! "receiverUsername")) eqn:Hr|];
      cbn [andb fst snd].
    + destruct (awaiting_post_conversations req Hs Hr) as [Haw Hes].
      split; [by constructor|]. split; [done|].
      rewrite !tally_singleton, Haw, Hes. simpl. lia.
    + split; [constructor|]. split; [by eapply sound_store_frame|account].
    + split; [constructor|]. split; [by eapply sound_store_frame|account].
  - split; [constructor|]. by split.
  - split; [constructor|]. by split.
  - rewrite settle_post_messages.
    destruct (message_fields req) as [[[[cid s] r] text]|] eqn:Hreq.
    + apply message_fields_Some in Hreq as (_ & ? & _ & ? & _ & ? & _ & ?).
      split; [by constructor|]. split; [by eapply sound_store_frame|account].
    + split; [constructor|]. split; [by eapply sound_store_frame|account].
  - split; [constructor|]. split; [by eapply sound_store_frame|account].
  - rewrite settle_on_signal.
    split; [constructor|]. split; [by apply sound_store_relayed|].
    destruct (on_signal_frame k socket data w) as (Hr & _).
    rewrite !tally_singleton. cbn. rewrite Hr. lia.
Qed.

Lemma event_loop_snoc (evs : list LoopEvent) (ev : LoopEvent) (w : World) :
  event_loop (evs ++ [ev]) w = turn ev (event_loop evs w).
Proof. unfold event_loop. by rewrite foldl_app. Qed.

(** One turn of the loop keeps the programs in flight where a listener can
    stand, the store sound and the books balanced. *)
Lemma turn_sound (ev : LoopEvent) (pool : list (Prog unit)) (w : World) (n : nat) :
  Forall in_flight pool → sound_store w → accounted n pool w →
  Forall in_flight (turn ev (pool, w)).1
  ∧ sound_store (turn ev (pool, w)).2
  ∧ accounted (n + tally is_http_arrival [ev]) (turn ev (pool, w)).1
      (turn ev (pool, w)).2.
Proof.
  unfold accounted. intros Hpool Hw Hn. destruct ev as [i|j|ms|sid|sid]; cbn [turn act].
  - destruct (settle_listener i w Hw) as (Hp & Hw' & Hacc).
    destruct (settle (listener i) w) as [p w'] eqn:Hs. cbn [fst snd] in *.
    split; [apply Forall_app; split; [done|by constructor]|]. split; [done|].
    rewrite !tally_snoc. rewrite !tally_singleton in *. simpl is_http_arrival. lia.
  - destruct (pool !! j) as [p|] eqn:Hj; [|split; [done|split; [done|]];
      rewrite tally_singleton; simpl (Nat.b2n _); cbn [fst snd]; lia].
    assert (in_flight p) as Hp by (by eapply Forall_lookup_1 in Hpool).
    destruct (resume_in_flight p w Hp Hw) as (Hp' & Hw' & Hacc).
    destruct (resume p w) as [p' w'] eqn:Hr. cbn [fst snd] in *.
    split; [by apply Forall_insert|]. split; [done|].
    pose proof (tally_insert awaiting pool j p p' Hj).
    pose proof (tally_insert escaped pool j p p' Hj).
    rewrite !tally_singleton in *. simpl is_http_arrival. simpl (Nat.b2n false). lia.
  - split; [done|]. split; [by eapply sound_store_frame|].
    rewrite tally_singleton. simpl (Nat.b2n _). cbn [fst snd]. by rewrite Nat.add_0_r.
  - split; [done|]. split; [by eapply sound_store_frame|].
    rewrite tally_singleton. simpl (Nat.b2n _). cbn [fst snd]. by rewrite Nat.add_0_r.
  - split; [done|]. split; [by eapply sound_store_frame|].
    rewrite tally_singleton. simpl (Nat.b2n _). cbn [fst snd]. by rewrite Nat.add_0_r.
Qed.

(** From boot on, whatever arrives and however the store's answers are
    ordered. *)
Lemma event_loop_sound (evs : list LoopEvent) (now : Z) (uuids oids : nat → string)
    (faults : nat → bool) :
  Forall in_flight (event_loop evs (boot now uuids oids faults)).1
  ∧ sound_store (event_loop evs (boot now uuids oids faults)).2
  ∧ accounted (tally is_http_arrival evs)
      (event_loop evs (boot now uuids oids faults)).1
      (event_loop evs (boot now uuids oids faults)).2.
Proof.
  induction evs as [|ev evs IH] using rev_ind.
  - split; [constructor|]. split; [|done].
    split; [constructor|]. split; [constructor|]. split; [constructor|].
    by intros d m Hd%elem_of_nil.
  - rewrite event_loop_snoc, tally_snoc.
    destruct IH as (Hpool & Hw & Hn).
    destruct (event_loop evs (boot now uuids oids faults)) as [pool w].
    by apply turn_sound.
Qed.

(** X18. However requests interleave, every stored conversation has exactly
    two participants, neither empty, and no two stored conversations share a
    conversationId. *)
Theorem X18_conversations_well_formed
    (evs : list LoopEvent) (now : Z) (uuids oids : nat → string)
    (faults : nat → bool) :
  let w := (event_loop evs (boot now uuids oids faults)).2 in
  Forall two_participants (conversations w)
  ∧ NoDup (Conversation.conversationId <$> conversations w).
Proof.
  intros w. destruct (event_loop_sound evs now uuids oids faults)
    as (_ & (Hc & Hid & _) & _). by split.
Qed.

(** X19. However requests interleave, every stored message has a non-empty
    conversationId, senderUsername, receiverUsername and message, and its
    [whosend] is its senderUsername. *)
Theorem X19_messages_complete
    (evs : list LoopEvent) (now : Z) (uuids oids : nat → string)
    (faults : nat → bool) :
  let w := (event_loop evs (boot now uuids oids faults)).2 in
  Forall complete_message (messages w).
Proof.
  intros w. by destruct (event_loop_sound evs now uuids oids faults)
    as (_ & (_ & _ & Hm & _) & _).
Qed.

(** X20. However requests interleave, a message document is only ever
    delivered to a connection as a [newMessage] event and only once it is
    in the store: nothing is broadcast that was not persisted. *)
Theorem X20_only_stored_messages_are_broadcast
    (evs : list LoopEvent) (now : Z) (uuids oids : nat → string)
    (faults : nat → bool) (d : Delivery) (m : Message.t) :
  let w := (event_loop evs (boot now uuids oids faults)).2 in
  d ∈ outbox w → d_payload d = PDocument m →
  m ∈ messages w ∧ d_event d = "newMessage".
Proof.
  intros w. destruct (event_loop_sound evs now uuids oids faults)
    as (_ & (_ & _ & _ & Hb) & _). apply Hb.
Qed.

(** X21. However requests interleave, the responses sent, the programs
    still waiting for the store and the programs ended by an uncaught
    exception add up to the HTTP requests that arrived: no request is
    answered twice, and one that is neither answered nor waiting ended in an
    exception that escaped its handler. *)
Theorem X21_every_request_accounted_for
    (evs : list LoopEvent) (now : Z) (uuids oids : nat → string)
    (faults : nat → bool) :
  let st := event_loop evs (boot now uuids oids faults) in
  length (responses st.2) + tally awaiting st.1 + tally escaped st.1
  = tally is_http_arrival evs.
Proof.
  intros st. by destruct (event_loop_sound evs now uuids oids faults)
    as (_ & _ & Hn).
Qed.









(** With an unhandled rejection ending the process, a failed create-or-get
    lookup strands a send-message request that was waiting for its save:
    it is never answered and its message never stored; where the process
    goes on, the save is answered and the request with it. *)
Example failed_lookup_strands_send :
  let w0 := boot 1700000000000 sample_uuid sample_oid first_fails in
  let halted := event_loop_halting lookup_fails_during_send w0 in
  let st := event_loop lookup_fails_during_send w0 in
  (responses halted.2 = [] ∧ messages halted.2 = []
   ∧ tally awaiting halted.1 = 1 ∧ tally escaped halted.1 = 1)
  ∧ (length (responses st.2) = 1 ∧ length (messages st.2) = 1
     ∧ tally awaiting st.1 = 0 ∧ tally escaped st.1 = 1).
Proof. by vm_compute. Qed.

(** ** The further theorems at work *)

Lemma X1_witness :
  ∃ w',
    run (post_conversations (conversation_request 1 "alice" "")) store_down
    = (Returned (), w')
    ∧ responses w' =
        responses store_down
          ++ [(1, mkResponse 400 (JMessage "Sender and receiver are required"))]
    ∧ conversations w' = conversations store_down
    ∧ db_count w' = db_count store_down
    ∧ uuid_count w' = uuid_count store_down.
Proof.
  apply (X1_conversation_request_incomplete
           (conversation_request 1 "alice" "") store_down).
  right. right. reflexivity.
Defined.

Lemma X2_witness :
  ∃ w',
    run (post_messages (mkRequest 2 {[ "conversationId" := "3f2b8c1e-0000";
                                       "senderUsername" := "alice";
                                       "message" := "hi" ]} ""))
      alice_and_bob
    = (Returned (), w')
    ∧ responses w' =
        responses alice_and_bob
          ++ [(2,
               mkResponse 400
                 (JMessage "Conversation ID, sender, receiver, and message are required"))]
    ∧ messages w' = messages alice_and_bob
    ∧ outbox w' = outbox alice_and_bob
    ∧ db_count w' = db_count alice_and_bob.
Proof.
  apply (X2_message_request_incomplete
           (mkRequest 2 {[ "conversationId" := "3f2b8c1e-0000";
                           "senderUsername" := "alice";
                           "message" := "hi" ]} "")
           alice_and_bob).
  right. right. left. left. reflexivity.
Defined.

Lemma X3_witness :
  ∃ w',
    run (post_conversations (conversation_request 1 "alice" "bob")) fresh_server
    = (Returned (), w')
    ∧ responses w' =
        responses fresh_server
          ++ [(1, mkResponse 200 (JConversationId "3f2b8c1e-0000"))]
    ∧ conversations w' = conversations fresh_server ++ [alice_and_bob_record].
Proof.
  apply (X3_first_contact_creates (conversation_request 1 "alice" "bob")
           "alice" "bob" fresh_server).
  - reflexivity.
  - reflexivity.
  - discriminate.
  - discriminate.
  - intros c Hc. inversion Hc.
  - reflexivity.
  - reflexivity.
  - intros Hin. inversion Hin.
  - intros Hin. inversion Hin.
Defined.

Lemma X4_witness :
  ∃ w',
    run (post_conversations (conversation_request 2 "carol" "dave"))
      after_first_contact_stuck
    = (Returned (), w')
    ∧ responses w' =
        responses after_first_contact_stuck
          ++ [(2, mkResponse 500 (JMessage "Error creating conversation"))]
    ∧ conversations w' = conversations after_first_contact_stuck.
Proof.
  apply (X4_creation_rejected (conversation_request 2 "carol" "dave")
           "carol" "dave" after_first_contact_stuck).
  - reflexivity.
  - reflexivity.
  - discriminate.
  - discriminate.
  - intros c Hc [Hcarol _].
    change (conversations after_first_contact_stuck) with [alice_and_bob_record] in Hc.
    apply list_elem_of_singleton in Hc as ->.
    assert ("carol" ∉ Conversation.participants alice_and_bob_record) by compute_done.
    contradiction.
  - reflexivity.
  - right. left. vm_compute. left.
Defined.

Lemma X5_witness :
  ∃ w',
    run (post_conversations (conversation_request 2 "alice" "alice")) alice_and_bob
    = (Returned (), w')
    ∧ responses w' =
        responses alice_and_bob
          ++ [(2, mkResponse 200 (JConversationId "3f2b8c1e-0000"))]
    ∧ conversations w' = conversations alice_and_bob.
Proof.
  apply (X5_self_request_returns_any_conversation
           (conversation_request 2 "alice" "alice") "alice" alice_and_bob_record
           alice_and_bob).
  - reflexivity.
  - reflexivity.
  - discriminate.
  - reflexivity.
  - vm_compute. reflexivity.
Defined.

Lemma X8_witness :
  ∃ w' entries,
    run (get_messages_list (param_request 7 "bob")) alice_and_bob = (Returned (), w')
    ∧ responses w' =
        responses alice_and_bob ++ [(7, mkResponse 200 (JList entries))]
    ∧ Forall2
        (λ entry c,
           le_conversationId entry = Conversation.conversationId c
           ∧ ∀ v, v ≠ "bob" →
               Conversation.participants c = ["bob"; v]
               ∨ Conversation.participants c = [v; "bob"] →
               le_receiverUsername entry = Some v)
        entries
        (filter (has_participant "bob") (conversations alice_and_bob)).
Proof.
  apply (X8_list_conversations_entries (param_request 7 "bob") alice_and_bob).
  reflexivity.
Defined.

Lemma X9_witness :
  let w1 :=
    snd (run (post_conversations (conversation_request 1 "alice" "bob")) fresh_server) in
  ∃ w3 entries,
    run (get_messages_list (param_request 2 "bob")) w1 = (Returned (), w3)
    ∧ responses w3 = responses w1 ++ [(2, mkResponse 200 (JList entries))]
    ∧ mkListEntry "3f2b8c1e-0000" (Some "alice") ∈ entries.
Proof.
  intros w1.
  apply (X9_created_conversation_is_listed
           (conversation_request 1 "alice" "bob") (param_request 2 "bob")
           "alice" "bob" "bob" "alice" "3f2b8c1e-0000" fresh_server w1 w1).
  - discriminate.
  - discriminate.
  - discriminate.
  - reflexivity.
  - reflexivity.
  - constructor.
  - vm_compute. reflexivity.
  - vm_compute. reflexivity.
  - reflexivity.
  - reflexivity.
  - right. split; reflexivity.
  - reflexivity.
Defined.

Lemma X10_witness :
  let w1 := snd (run (post_messages hi_from_alice) alice_and_bob) in
  ∃ w3 found,
    run (get_messages_conversation (param_request 9 "3f2b8c1e-0000")) w1
    = (Returned (), w3)
    ∧ responses w3 = responses w1 ++ [(9, mkResponse 200 (JMessages found))]
    ∧ hi_stored ∈ found
    ∧ (messages w1 = messages w1 → last found = Some hi_stored).
Proof.
  intros w1.
  apply (X10_sent_message_is_listed hi_from_alice
           (param_request 9 "3f2b8c1e-0000") hi_stored (Returned ())
           alice_and_bob w1 w1).
  - vm_compute. reflexivity.
  - vm_compute. reflexivity.
  - reflexivity.
  - reflexivity.
  - reflexivity.
Defined.

Lemma X12_witness :
  let w1 := snd (run (on_joinConversation "sock-3" "3f2b8c1e-0000") alice_and_bob) in
  let w2 := snd (run (post_messages hi_from_alice) w1) in
  ∃ new,
    outbox w2 = outbox w1 ++ new
    ∧ mkDelivery "sock-3" "newMessage" (PDocument hi_stored) ∈ new
    ∧ ∀ d, d ∈ new →
        d_to d = "sock-3" ∨ d_to d ∈ members "3f2b8c1e-0000" alice_and_bob.
Proof.
  intros w1 w2.
  apply (X12_joined_socket_receives_new_messages "sock-3" hi_from_alice hi_stored
           (Returned ()) alice_and_bob w2).
  - vm_compute. reflexivity.
  - vm_compute. reflexivity.
Defined.

Lemma X14_witness :
  let w1 := snd (run (on_joinConversation "sock-2" "alice") lone_caller) in
  mkDelivery "sock-2" "answer" (PData {[ "callerId" := "alice"; "sdp" := "v=0" ]})
    ∈ outbox (snd (run (on_signal Answer "sock-1"
                          {[ "callerId" := "alice"; "sdp" := "v=0" ]}) w1)).
Proof.
  apply (X14_joined_room_receives_signaling Answer "sock-2" "sock-1" "alice"
           {[ "callerId" := "alice"; "sdp" := "v=0" ]} lone_caller).
  - discriminate.
  - reflexivity.
Defined.

Lemma X16_witness :
  let w := serially two_contacts_and_a_message fresh_server in
  alice_and_bob_record ∈ conversations w
  ∧ alice_and_bob_record = alice_and_bob_record.
Proof.
  intros w.
  assert (alice_and_bob_record ∈ conversations w) as Hin.
  { change (conversations w) with [alice_and_bob_record]. left. }
  split; [exact Hin|].
  apply (X16_serial_one_record_per_pair two_contacts_and_a_message 1700000000000
           sample_uuid sample_oid never alice_and_bob_record alice_and_bob_record).
  - exact Hin.
  - exact Hin.
  - reflexivity.
Defined.

Lemma X17_witness :
  let w := serially two_messages_exchanged fresh_server in
  let req := param_request 9 "3f2b8c1e-0000" in
  responses (snd (run (get_messages_conversation req) w))
  = responses w ++ [(9, mkResponse 200 (JMessages [hi_stored; hello_stored]))]
  ∧ ∃ w' found,
      run (get_messages_conversation req) w = (Returned (), w')
      ∧ responses w' = responses w ++ [(9, mkResponse 200 (JMessages found))]
      ∧ Sorted by_timestamp found.
Proof.
  intros w req. split; [vm_compute; reflexivity|].
  apply (X17_serial_list_messages_ascending two_messages_exchanged 1700000000000
           sample_uuid sample_oid never req).
  reflexivity.
Defined.

Lemma X20_witness :
  let w := (event_loop join_then_send fresh_server).2 in
  mkDelivery "sock-1" "newMessage" (PDocument hi_stored_first) ∈ outbox w
  ∧ hi_stored_first ∈ messages w.
Proof.
  intros w.
  assert (outbox w = [mkDelivery "sock-1" "newMessage" (PDocument hi_stored_first)])
    as Hout by (vm_compute; reflexivity).
  assert (mkDelivery "sock-1" "newMessage" (PDocument hi_stored_first) ∈ outbox w)
    as Hin by (rewrite Hout; left).
  split; [exact Hin|].
  refine (proj1 (X20_only_stored_messages_are_broadcast join_then_send 1700000000000
                   sample_uuid sample_oid never
                   (mkDelivery "sock-1" "newMessage" (PDocument hi_stored_first))
                   hi_stored_first _ _)).
  - exact Hin.
  - reflexivity.
Defined.

Lemma X23_witness :
  rooms (snd (run (post_messages hi_from_alice) alice_and_bob)) = rooms alice_and_bob
  ∧ sockets (snd (run (post_messages hi_from_alice) alice_and_bob))
    = sockets alice_and_bob.
Proof.
  apply (X23_only_join_changes_rooms (HttpPostMessages hi_from_alice) alice_and_bob).
  intros socket cid. discriminate.
Defined.
